(** * Neon Velocity: the AI car behaviour engine (src/ai.js)

    A shallow embedding of the [AICar] class: the rubber-band regulator,
    the five-state behavioural machine, the lane planners and the
    movement integrator, followed by the properties the specification
    states about them.

    Numbers.  JavaScript numbers are modelled by exact rationals [Q];
    rounding of IEEE doubles is outside the model.  The only place where
    [undefined]/[NaN] can flow is an out-of-range [laneCenters[l]] read,
    so a lane centre and the agent's [x] are [option Q], [None] standing
    for [undefined]/[NaN]; every comparison with [None] is false, as in
    JavaScript.  [Math.random()] is an explicit argument: a draw is a
    rational, and the contract of [Math.random] (a value in [0,1)) is the
    predicate [unit_draw]. *)

From Stdlib Require Import QArith Qabs Qround Qminmax ZArith List Bool Lia Lqa.
Import ListNotations.
Open Scope Q_scope.

(** ** Numeric layer *)

(** [a < b] on numbers, as a boolean. *)
Definition Qltb (a b : Q) : bool := negb (Qle_bool b a).

(** [Math.sign]. *)
Definition Qsign (q : Q) : Q :=
  if Qltb 0 q then 1 else if Qltb q 0 then -1 else 0.

(** [Math.abs(u - v) < bound] where either operand may be [NaN]. *)
Definition absDiffLt (u v : option Q) (bound : Q) : bool :=
  match u, v with
  | Some u', Some v' => Qltb (Qabs (u' - v')) bound
  | _, _ => false
  end.

(** A result of [Math.random()]. *)
Definition unit_draw (r : Q) : Prop := 0 <= r /\ r < 1.

(** [laneCenters[l]] for an integer index [l]. *)
Definition laneCenter (laneCenters : list Q) (l : Z) : option Q :=
  if (l <? 0)%Z then None else nth_error laneCenters (Z.to_nat l).

(** The layout the game passes to every car: [LANE_CENTERS = [80, 240, 400]]. *)
Definition LANE_CENTERS : list Q := [80; 240; 400].

(** ** Data model *)

Inductive State : Type := CRUISE | DODGE | ACCELERATE | OVERTAKE | BLOCK.

Definition State_eqb (s t : State) : bool :=
  match s, t with
  | CRUISE, CRUISE | DODGE, DODGE | ACCELERATE, ACCELERATE
  | OVERTAKE, OVERTAKE | BLOCK, BLOCK => true
  | _, _ => false
  end.

(** The player snapshot [{x, y, lane}] handed to [update]. *)
Module Player.
Record t : Type := mk { x : Q; y : Q; lane : Z }.
End Player.

(** An obstacle: anything with [x], [y] and [width] (the traffic cars). *)
Module Obstacle.
Record t : Type := mk { x : Q; y : Q; width : Q }.
End Obstacle.

(** The fields of an [AICar].  [oid] is the identity of the JavaScript
    object: [p !== this] compares references, which the model renders as
    a comparison of [oid]s.  The leading underscore of the private fields
    is dropped. *)
Record AICar : Type := mkAICar {
  oid : nat;
  laneCenters : list Q;
  lane : Z;
  x : option Q;
  y : Q;
  color : Z;
  width : Q;
  height : Q;
  state : State;
  stateTimer : Q;
  aggression : Q;
  reactionTime : Q;
  reactionTimer : Q;
  targetLane : Z;
  laneChangeCooldown : Q;
  LANE_CHANGE_COOLDOWN : Q;
  LATERAL_SPEED : Q;
  lookAhead : Q;
  rubberBandMult : Q;
  playerBehind : bool;
  blockTimer : Q
}.

(** Field assignments [this.f = v]. *)
Definition set_lane (a : AICar) (v : Z) : AICar :=
  mkAICar (oid a) (laneCenters a) v (x a) (y a) (color a) (width a) (height a)
    (state a) (stateTimer a) (aggression a) (reactionTime a) (reactionTimer a)
    (targetLane a) (laneChangeCooldown a) (LANE_CHANGE_COOLDOWN a)
    (LATERAL_SPEED a) (lookAhead a) (rubberBandMult a) (playerBehind a)
    (blockTimer a).

Definition set_x (a : AICar) (v : option Q) : AICar :=
  mkAICar (oid a) (laneCenters a) (lane a) v (y a) (color a) (width a) (height a)
    (state a) (stateTimer a) (aggression a) (reactionTime a) (reactionTimer a)
    (targetLane a) (laneChangeCooldown a) (LANE_CHANGE_COOLDOWN a)
    (LATERAL_SPEED a) (lookAhead a) (rubberBandMult a) (playerBehind a)
    (blockTimer a).

Definition set_y (a : AICar) (v : Q) : AICar :=
  mkAICar (oid a) (laneCenters a) (lane a) (x a) v (color a) (width a) (height a)
    (state a) (stateTimer a) (aggression a) (reactionTime a) (reactionTimer a)
    (targetLane a) (laneChangeCooldown a) (LANE_CHANGE_COOLDOWN a)
    (LATERAL_SPEED a) (lookAhead a) (rubberBandMult a) (playerBehind a)
    (blockTimer a).

Definition set_state (a : AICar) (v : State) : AICar :=
  mkAICar (oid a) (laneCenters a) (lane a) (x a) (y a) (color a) (width a) (height a)
    v (stateTimer a) (aggression a) (reactionTime a) (reactionTimer a)
    (targetLane a) (laneChangeCooldown a) (LANE_CHANGE_COOLDOWN a)
    (LATERAL_SPEED a) (lookAhead a) (rubberBandMult a) (playerBehind a)
    (blockTimer a).

Definition set_stateTimer (a : AICar) (v : Q) : AICar :=
  mkAICar (oid a) (laneCenters a) (lane a) (x a) (y a) (color a) (width a) (height a)
    (state a) v (aggression a) (reactionTime a) (reactionTimer a)
    (targetLane a) (laneChangeCooldown a) (LANE_CHANGE_COOLDOWN a)
    (LATERAL_SPEED a) (lookAhead a) (rubberBandMult a) (playerBehind a)
    (blockTimer a).

Definition set_reactionTime (a : AICar) (v : Q) : AICar :=
  mkAICar (oid a) (laneCenters a) (lane a) (x a) (y a) (color a) (width a) (height a)
    (state a) (stateTimer a) (aggression a) v (reactionTimer a)
    (targetLane a) (laneChangeCooldown a) (LANE_CHANGE_COOLDOWN a)
    (LATERAL_SPEED a) (lookAhead a) (rubberBandMult a) (playerBehind a)
    (blockTimer a).

Definition set_reactionTimer (a : AICar) (v : Q) : AICar :=
  mkAICar (oid a) (laneCenters a) (lane a) (x a) (y a) (color a) (width a) (height a)
    (state a) (stateTimer a) (aggression a) (reactionTime a) v
    (targetLane a) (laneChangeCooldown a) (LANE_CHANGE_COOLDOWN a)
    (LATERAL_SPEED a) (lookAhead a) (rubberBandMult a) (playerBehind a)
    (blockTimer a).

Definition set_targetLane (a : AICar) (v : Z) : AICar :=
  mkAICar (oid a) (laneCenters a) (lane a) (x a) (y a) (color a) (width a) (height a)
    (state a) (stateTimer a) (aggression a) (reactionTime a) (reactionTimer a)
    v (laneChangeCooldown a) (LANE_CHANGE_COOLDOWN a)
    (LATERAL_SPEED a) (lookAhead a) (rubberBandMult a) (playerBehind a)
    (blockTimer a).

Definition set_laneChangeCooldown (a : AICar) (v : Q) : AICar :=
  mkAICar (oid a) (laneCenters a) (lane a) (x a) (y a) (color a) (width a) (height a)
    (state a) (stateTimer a) (aggression a) (reactionTime a) (reactionTimer a)
    (targetLane a) v (LANE_CHANGE_COOLDOWN a)
    (LATERAL_SPEED a) (lookAhead a) (rubberBandMult a) (playerBehind a)
    (blockTimer a).

Definition set_LANE_CHANGE_COOLDOWN (a : AICar) (v : Q) : AICar :=
  mkAICar (oid a) (laneCenters a) (lane a) (x a) (y a) (color a) (width a) (height a)
    (state a) (stateTimer a) (aggression a) (reactionTime a) (reactionTimer a)
    (targetLane a) (laneChangeCooldown a) v
    (LATERAL_SPEED a) (lookAhead a) (rubberBandMult a) (playerBehind a)
    (blockTimer a).

Definition set_lookAhead (a : AICar) (v : Q) : AICar :=
  mkAICar (oid a) (laneCenters a) (lane a) (x a) (y a) (color a) (width a) (height a)
    (state a) (stateTimer a) (aggression a) (reactionTime a) (reactionTimer a)
    (targetLane a) (laneChangeCooldown a) (LANE_CHANGE_COOLDOWN a)
    (LATERAL_SPEED a) v (rubberBandMult a) (playerBehind a)
    (blockTimer a).

Definition set_rubberBandMult (a : AICar) (v : Q) : AICar :=
  mkAICar (oid a) (laneCenters a) (lane a) (x a) (y a) (color a) (width a) (height a)
    (state a) (stateTimer a) (aggression a) (reactionTime a) (reactionTimer a)
    (targetLane a) (laneChangeCooldown a) (LANE_CHANGE_COOLDOWN a)
    (LATERAL_SPEED a) (lookAhead a) v (playerBehind a)
    (blockTimer a).

Definition set_playerBehind (a : AICar) (v : bool) : AICar :=
  mkAICar (oid a) (laneCenters a) (lane a) (x a) (y a) (color a) (width a) (height a)
    (state a) (stateTimer a) (aggression a) (reactionTime a) (reactionTimer a)
    (targetLane a) (laneChangeCooldown a) (LANE_CHANGE_COOLDOWN a)
    (LATERAL_SPEED a) (lookAhead a) (rubberBandMult a) v
    (blockTimer a).

Definition set_blockTimer (a : AICar) (v : Q) : AICar :=
  mkAICar (oid a) (laneCenters a) (lane a) (x a) (y a) (color a) (width a) (height a)
    (state a) (stateTimer a) (aggression a) (reactionTime a) (reactionTimer a)
    (targetLane a) (laneChangeCooldown a) (LANE_CHANGE_COOLDOWN a)
    (LATERAL_SPEED a) (lookAhead a) (rubberBandMult a) (playerBehind a)
    v.

(** The draws of [Math.random()] one call may consume. *)
Record CtorDraws : Type := mkCtorDraws {
  draw_color : Q;
  draw_aggression : Q;
  draw_reaction : Q
}.

Record RespawnDraws : Type := mkRespawnDraws {
  draw_y : Q;
  draw_lane : Q
}.

Definition ctor_draws_ok (d : CtorDraws) : Prop :=
  unit_draw (draw_color d) /\ unit_draw (draw_aggression d) /\
  unit_draw (draw_reaction d).

Definition respawn_draws_ok (d : RespawnDraws) : Prop :=
  unit_draw (draw_y d) /\ unit_draw (draw_lane d).

(** ** Operations *)

(** [new AICar(lane, y, laneCenters)]; [id] names the fresh object. *)
Definition newAICar (id : nat) (lane0 : Z) (y0 : Q) (centers : list Q)
    (d : CtorDraws) : AICar :=
  {| oid := id;
     laneCenters := centers;
     lane := lane0;
     x := laneCenter centers lane0;
     y := y0;
     color := Qfloor (draw_color d * 5);
     width := 36;
     height := 62;
     state := CRUISE;
     stateTimer := 0;
     aggression := 0.4 + draw_aggression d * 0.55;
     reactionTime := draw_reaction d * 0.12;
     reactionTimer := 0;
     targetLane := lane0;
     laneChangeCooldown := 0;
     LANE_CHANGE_COOLDOWN := 0.75;
     LATERAL_SPEED := 650;
     lookAhead := 130;
     rubberBandMult := 1.0;
     playerBehind := false;
     blockTimer := 0 |}.

(** [_respawnAbove(player)]. *)
Definition respawnAbove (a : AICar) (player : Player.t) (d : RespawnDraws)
    : AICar :=
  let a := set_y a (Player.y player - 740 - draw_y d * 300) in
  let a := set_lane a (Qfloor (draw_lane d * 3)) in
  let a := set_targetLane a (lane a) in
  let a := set_x a (laneCenter (laneCenters a) (lane a)) in
  let a := set_state a CRUISE in
  set_playerBehind a false.

(** [_updateRubberBand(player, gameSpeed)]. *)
Definition updateRubberBand (a : AICar) (player : Player.t) (gameSpeed : Q)
    (d : RespawnDraws) : AICar :=
  let delta := y a - Player.y player in
  if Qltb 220 delta then set_rubberBandMult a 0.82
  else if Qltb delta (-80) then
    set_rubberBandMult (respawnAbove a player d) 1.0
  else set_rubberBandMult a 1.0.

(** [_scanObstacle(obstacles)]: the scan at the agent's own position. *)
Definition scanObstacle (a : AICar) (obstacles : list Obstacle.t) : bool :=
  existsb (fun o =>
    absDiffLt (Some (Obstacle.x o)) (x a) (width a * 0.6 + Obstacle.width o * 0.4)
    && Qltb (y a - lookAhead a) (Obstacle.y o)
    && Qltb (Obstacle.y o) (y a + height a)) obstacles.

(** [_laneOccupied(l, peers)]. *)
Definition laneOccupied (a : AICar) (l : Z) (peers : list AICar) : bool :=
  let lx := laneCenter (laneCenters a) l in
  existsb (fun p =>
    negb (Nat.eqb (oid p) (oid a))
    && Qltb (Qabs (y p - y a)) 80
    && (absDiffLt (x p) lx 44 || (targetLane p =? l)%Z)) peers.

(** The closure [hasObstacle] of [_dodge]: the scan of lane [l]. *)
Definition hasObstacle (a : AICar) (l : Z) (obstacles : list Obstacle.t)
    : bool :=
  let lx := laneCenter (laneCenters a) l in
  existsb (fun o =>
    absDiffLt (Some (Obstacle.x o)) lx (width a * 0.5 + Obstacle.width o * 0.4)
    && Qltb (y a - lookAhead a) (Obstacle.y o)
    && Qltb (Obstacle.y o) (y a + height a)) obstacles.

(** [_changeLane(newLane)]. *)
Definition changeLane (a : AICar) (newLane : Z) : AICar :=
  if (newLane <? 0)%Z || (2 <? newLane)%Z || (newLane =? targetLane a)%Z
  then a
  else
    let a := set_targetLane a newLane in
    set_laneChangeCooldown a (LANE_CHANGE_COOLDOWN a).

(** [Array.prototype.sort] with a comparator: a stable insertion sort. *)
Fixpoint insertBy (cmp : Z -> Z -> Z) (v : Z) (l : list Z) : list Z :=
  match l with
  | [] => [v]
  | h :: t => if (cmp v h <=? 0)%Z then v :: h :: t else h :: insertBy cmp v t
  end.

Definition sortBy (cmp : Z -> Z -> Z) (l : list Z) : list Z :=
  fold_right (insertBy cmp) [] l.

(** [_dodge(obstacles, peers)]. *)
Definition dodge (a : AICar) (obstacles : list Obstacle.t)
    (peers : list AICar) : AICar :=
  if Qltb 0 (laneChangeCooldown a) then a
  else
    let safeLanes :=
      filter (fun l => negb (hasObstacle a l obstacles)
                       && negb (laneOccupied a l peers)) [0; 1; 2]%Z in
    match sortBy (fun u v => Z.abs (u - lane a) - Z.abs (v - lane a))%Z
                 safeLanes with
    | [] => a
    | best :: _ => changeLane a best
    end.

(** [_planOvertake(player, peers)]. *)
Definition planOvertake (a : AICar) (player : Player.t) (peers : list AICar)
    : AICar :=
  if Qltb 0 (laneChangeCooldown a) then a
  else
    let freeLanes :=
      filter (fun l => negb (l =? Player.lane player)%Z
                       && negb (laneOccupied a l peers)) [0; 1; 2]%Z in
    match freeLanes with
    | [] => a
    | first :: rest =>
        let best :=
          fold_left (fun u v =>
            if (Z.abs (u - lane a) <? Z.abs (v - lane a))%Z then u else v)
            rest first in
        changeLane a best
    end.

(** [_planBlock(player, peers)]. *)
Definition planBlock (a : AICar) (player : Player.t) (peers : list AICar)
    : AICar :=
  if Qltb 0 (laneChangeCooldown a) then a
  else if negb (laneOccupied a (Player.lane player) peers)
       then changeLane a (Player.lane player)
       else a.

(** The tail of [_think]: block-cooldown decay and state expiry. *)
Definition thinkDefault (a : AICar) : AICar :=
  let a := if Qltb 0 (blockTimer a)
           then set_blockTimer a (blockTimer a - (reactionTime a + 0.001))
           else a in
  if Qle_bool (stateTimer a) 0 then set_state a CRUISE else a.

(** [_think(player, obstacles, peers)]. *)
Definition think (a : AICar) (player : Player.t)
    (obstacles : list Obstacle.t) (peers : list AICar) : AICar :=
  let a := set_reactionTimer a (reactionTime a) in
  if scanObstacle a obstacles && negb (State_eqb (state a) DODGE) then
    let a := set_state a DODGE in
    let a := set_stateTimer a 1.2 in
    dodge a obstacles peers
  else
    let delta := y a - Player.y player in
    if Qltb delta (-40) then
      let a := set_state a ACCELERATE in
      set_stateTimer a 0.6
    else
      let vertDist := Qabs (y a - Player.y player) in
      if Qltb vertDist 140 then
        if Qltb 0.82 (aggression a) && negb (State_eqb (state a) BLOCK)
           && Qle_bool (blockTimer a) 0 then
          let a := set_state a BLOCK in
          let a := set_stateTimer a 1.4 in
          let a := set_blockTimer a 3.0 in
          planBlock a player peers
        else if Qltb 0.65 (aggression a)
                && negb (State_eqb (state a) OVERTAKE) then
          let a := set_state a OVERTAKE in
          let a := set_stateTimer a 1.0 in
          planOvertake a player peers
        else thinkDefault a
      else thinkDefault a.

(** [_applyMovement(dt, gameSpeed)]. *)
Definition applyMovement (a : AICar) (dt gameSpeed : Q) : AICar :=
  let vMult := rubberBandMult a in
  let vMult := if State_eqb (state a) ACCELERATE then vMult * 1.18 else vMult in
  let vMult := if State_eqb (state a) BLOCK then vMult * 1.05 else vMult in
  let relSpeed := gameSpeed * (vMult - 1.0) in
  let a := set_y a (y a + relSpeed * dt) in
  let targetX := laneCenter (laneCenters a) (targetLane a) in
  let step := LATERAL_SPEED a * dt in
  match targetX, x a with
  | Some tx, Some cx =>
      let dx := tx - cx in
      if Qle_bool (Qabs dx) step
      then set_lane (set_x a targetX) (targetLane a)
      else set_x a (Some (cx + Qsign dx * step))
  | _, _ => set_x a None
  end.

(** [scroll(amount)]. *)
Definition scroll (a : AICar) (amount : Q) : AICar :=
  set_y a (y a + amount).

(** The difficulty interpolation [speedT] of [update]. *)
Definition speedT (gameSpeed : Q) : Q := Qmin ((gameSpeed - 200) / 400) 1.

(** The first half of [update]: difficulty scaling, the two timers and
    the rubber-band regulator. *)
Definition updateRegulate (a : AICar) (dt gameSpeed : Q) (player : Player.t)
    (d : RespawnDraws) : AICar :=
  let t := speedT gameSpeed in
  let a := set_lookAhead a (130 + t * 90) in
  let a := set_LANE_CHANGE_COOLDOWN a (Qmax 0.8 (1.5 - t * 0.5)) in
  let a := set_reactionTime a (Qmax 0 (reactionTime a * (1 - t * 0.3))) in
  let a := set_stateTimer a (stateTimer a - dt) in
  let a := if Qltb 0 (laneChangeCooldown a)
           then set_laneChangeCooldown a (laneChangeCooldown a - dt)
           else a in
  updateRubberBand a player gameSpeed d.

(** The reaction-timer gate of [update]. *)
Definition updateThink (a : AICar) (dt : Q) (player : Player.t)
    (obstacles : list Obstacle.t) (peers : list AICar) : AICar :=
  if Qltb 0 (reactionTimer a)
  then set_reactionTimer a (reactionTimer a - dt)
  else think a player obstacles peers.

(** [update(dt, gameSpeed, player, obstacles, peers)]. *)
Definition update (a : AICar) (dt gameSpeed : Q) (player : Player.t)
    (obstacles : list Obstacle.t) (peers : list AICar) (d : RespawnDraws)
    : AICar :=
  let a := updateRegulate a dt gameSpeed player d in
  let a := updateThink a dt player obstacles peers in
  applyMovement a dt gameSpeed.

(** ** Histories of one agent *)

(** The operations the game applies to a car: a full [update], the
    per-frame [scroll], and a bare pass of the rubber-band regulator. *)
Inductive Op : Type :=
| OpUpdate (dt gameSpeed : Q) (player : Player.t)
           (obstacles : list Obstacle.t) (peers : list AICar)
           (d : RespawnDraws)
| OpScroll (amount : Q)
| OpRegulate (player : Player.t) (gameSpeed : Q) (d : RespawnDraws).

Definition applyOp (a : AICar) (op : Op) : AICar :=
  match op with
  | OpUpdate dt gameSpeed player obstacles peers d =>
      update a dt gameSpeed player obstacles peers d
  | OpScroll amount => scroll a amount
  | OpRegulate player gameSpeed d => updateRubberBand a player gameSpeed d
  end.

Definition run (a : AICar) (ops : list Op) : AICar := fold_left applyOp ops a.

(** Every draw an operation consumes honours the contract of [Math.random]. *)
Definition op_draws_ok (op : Op) : Prop :=
  match op with
  | OpUpdate _ _ _ _ _ d => respawn_draws_ok d
  | OpScroll _ => True
  | OpRegulate _ _ d => respawn_draws_ok d
  end.

Definition lane_in_range (l : Z) : Prop := (0 <= l <= 2)%Z.

Definition lanes_ok (a : AICar) : Prop :=
  lane_in_range (lane a) /\ lane_in_range (targetLane a).

(** ** The specification's wording, kept apart from the code *)

(** Section 4.2 of the specification: lane [l] is blocked when some
    obstacle is horizontally within [selfWidth*0.5 + obstacleWidth*0.4] of
    the lane centre and vertically within the closed window
    [[self.y - lookAhead, self.y + selfHeight]]. *)
Definition spec_blocked (a : AICar) (l : Z) (obstacles : list Obstacle.t)
    : Prop :=
  exists o lx,
    In o obstacles /\
    laneCenter (laneCenters a) l = Some lx /\
    Qabs (Obstacle.x o - lx) < width a * 0.5 + Obstacle.width o * 0.4 /\
    y a - lookAhead a <= Obstacle.y o /\ Obstacle.y o <= y a + height a.

(** Section 4.4 of the specification: the committed lane-change cooldown
    lies between the nominal 0.75 s and the floor of 0.8 s. *)
Definition spec_cooldown_range (c : Q) : Prop := 0.75 <= c /\ c <= 0.8.

(** Section 4.1 of the specification: a peer other than [a] that is
    vertically close and either horizontally on lane [l] or heading for it. *)
Definition occupies (a : AICar) (l : Z) (p : AICar) : Prop :=
  oid p <> oid a /\
  Qabs (y p - y a) < 80 /\
  ((exists px lx, x p = Some px /\ laneCenter (laneCenters a) l = Some lx /\
                  Qabs (px - lx) < 44)
   \/ targetLane p = l).

(** ** The game's use of the cars (game.js) *)

(** The callback of the [reduce] in the getter [PlayerCar.lane]: the
    pair carries the accumulator [best] and the running index [i]; the
    index wins when its centre is strictly nearer to [px]. *)
Definition nearestStep (px : Q) (acc : Z * Z) (lx : Q) : Z * Z :=
  let (best, i) := acc in
  (match laneCenter LANE_CENTERS best with
   | Some b => if Qltb (Qabs (lx - px)) (Qabs (b - px)) then i else best
   | None => best
   end, (i + 1)%Z).

(** The getter [PlayerCar.lane]: the index of the lane centre nearest to
    the player's [x], by [LANE_CENTERS.reduce] from index 0. *)
Definition playerLane (px : Q) : Z :=
  fst (fold_left (nearestStep px) LANE_CENTERS (0%Z, 0%Z)).

(** The snapshot [pInfo = { x, y, lane }] the game hands to [update]. *)
Definition playerInfo (px py : Q) : Player.t :=
  Player.mk px py (playerLane px).

(** [CANVAS_H], and the height at which [PlayerCar] is built and stays:
    [this.y = CANVAS_H - 120]. *)
Definition CANVAS_H : Q := 720.
Definition PLAYER_Y : Q := CANVAS_H - 120.

(** [AI_COUNT]. *)
Definition AI_COUNT : nat := 4.

(** The draws one spawned car consumes: the lane, then the constructor's. *)
Record SpawnDraws : Type := mkSpawnDraws {
  spawn_lane : Q;
  spawn_ctor : CtorDraws
}.

Definition spawn_draws_ok (d : SpawnDraws) : Prop :=
  unit_draw (spawn_lane d) /\ ctor_draws_ok (spawn_ctor d).

(** The callback of [_spawnAI] at index [i]; the index also names the
    fresh object. *)
Definition spawnOne (i : nat) (d : SpawnDraws) : AICar :=
  newAICar i (Qfloor (spawn_lane d * 3))
           (-120 - inject_Z (Z.of_nat i) * 210) LANE_CENTERS (spawn_ctor d).

(** [_spawnAI()]: [Array.from({ length: AI_COUNT }, ...)]; [draws i] are
    the draws made while building car [i]. *)
Definition spawnAI (draws : nat -> SpawnDraws) : list AICar :=
  map (fun i => spawnOne i (draws i)) (seq 0 AI_COUNT).

(** [POINTS_PER_OVERTAKE]. *)
Definition POINTS_PER_OVERTAKE : Q := 10.

(** The body of the loop of [_checkOvertakes] for one car; the score is
    threaded, the sound cue and the log line are left out. *)
Definition checkOvertake (py : Q) (a : AICar) (score : Q) : AICar * Q :=
  let a := if negb (playerBehind a) && Qltb (py + 40) (y a)
           then set_playerBehind a true else a in
  if playerBehind a && Qltb (y a) (py - 40)
  then (set_playerBehind a false, score + POINTS_PER_OVERTAKE)
  else (a, score).

(** [_checkOvertakes()] over the roster, in order. *)
Fixpoint checkOvertakes (py : Q) (cars : list AICar) (score : Q)
    : list AICar * Q :=
  match cars with
  | [] => ([], score)
  | a :: rest =>
      let (a', score') := checkOvertake py a score in
      let (rest', score'') := checkOvertakes py rest score' in
      (a' :: rest', score'')
  end.

(** Cars whose flag is set and which are more than 40 units on the
    negative side of the player: those [_checkOvertakes] pays for. *)
Definition overtakeDue (py : Q) (a : AICar) : bool :=
  playerBehind a && Qltb (y a) (py - 40).

(** An operation's time step is not negative. *)
Definition op_time_ok (op : Op) : Prop :=
  match op with
  | OpUpdate dt _ _ _ _ _ => 0 <= dt
  | _ => True
  end.

(** Lane [l] passes the filter of [_dodge]. *)
Definition safeLane (a : AICar) (obstacles : list Obstacle.t)
    (peers : list AICar) (l : Z) : bool :=
  negb (hasObstacle a l obstacles) && negb (laneOccupied a l peers).

(** Lane [l] passes the filter of [_planOvertake]. *)
Definition freeLane (a : AICar) (player : Player.t) (peers : list AICar)
    (l : Z) : bool :=
  negb (l =? Player.lane player)%Z && negb (laneOccupied a l peers).

(** The car is on a road whose lane centres all lie in [[lo, hi]]: it
    still holds the layout [centers], its lateral speed is not negative,
    its lanes are valid and its [x] is a number between [lo] and [hi]. *)
Definition road_inv (centers : list Q) (lo hi : Q) (a : AICar) : Prop :=
  laneCenters a = centers /\ 0 <= LATERAL_SPEED a /\ lanes_ok a /\
  exists cx, x a = Some cx /\ lo <= cx /\ cx <= hi.

(** Car [b] is built like car [a]: same object, layout, size, lateral
    speed, colour and aggression. *)
Definition same_build (a b : AICar) : Prop :=
  oid b = oid a /\ laneCenters b = laneCenters a /\
  width b = width a /\ height b = height a /\
  LATERAL_SPEED b = LATERAL_SPEED a /\ color b = color a /\
  aggression b = aggression a.

(** ** Planner outcomes *)

(** Every planner either leaves the agent alone or ends in one
    [_changeLane] call. *)
Definition via_changeLane (a a' : AICar) : Prop :=
  a' = a \/ exists n, a' = changeLane a n.

(** ** Sample scenes used by the examples below *)

Definition player_at (py : Q) (l : Z) : Player.t :=
  Player.mk (nth (Z.to_nat l) LANE_CENTERS 0) py l.

(** A car built by the constructor in lane [l] at height [y0] whose
    aggression draw gives [0.4 + r * 0.55]. *)
Definition car_with (id : nat) (l : Z) (y0 r : Q) : AICar :=
  newAICar id l y0 LANE_CENTERS (mkCtorDraws 0 r (1 # 2)).

(** ** Basic facts *)

Lemma Qltb_true (a b : Q) : Qltb a b = true <-> a < b.
Proof.
  unfold Qltb. rewrite negb_true_iff. split; intro H.
  - apply Qnot_le_lt. intro Hle. apply Qle_bool_iff in Hle. congruence.
  - destruct (Qle_bool b a) eqn:E; [|reflexivity].
    apply Qle_bool_iff in E. exfalso. apply (Qlt_not_le _ _ H E).
Qed.

Lemma Qltb_false (a b : Q) : Qltb a b = false <-> b <= a.
Proof.
  unfold Qltb. rewrite negb_false_iff. apply Qle_bool_iff.
Qed.

Lemma State_eqb_eq (s t : State) : State_eqb s t = true <-> s = t.
Proof. destruct s, t; simpl; split; intro H; congruence. Qed.

Lemma State_eqb_neq (s t : State) : State_eqb s t = false <-> s <> t.
Proof. destruct s, t; simpl; split; intro H; congruence. Qed.

(** What [_changeLane] can do: nothing, or commit an in-range lane that
    differs from the current target and restart the cooldown. *)
Lemma changeLane_cases (a : AICar) (n : Z) :
  ((n < 0 \/ 2 < n \/ n = targetLane a)%Z /\ changeLane a n = a) \/
  ((0 <= n <= 2)%Z /\ n <> targetLane a /\
   changeLane a n =
     set_laneChangeCooldown (set_targetLane a n) (LANE_CHANGE_COOLDOWN a)).
Proof.
  unfold changeLane.
  destruct (n <? 0)%Z eqn:E1; [left; split; [left; lia | reflexivity]|].
  destruct (2 <? n)%Z eqn:E2; [left; split; [right; left; lia | reflexivity]|].
  destruct (n =? targetLane a)%Z eqn:E3; simpl.
  - left. split; [right; right; lia | reflexivity].
  - right. repeat split; try lia. 
Qed.

Lemma dodge_shape (a : AICar) obstacles peers :
  via_changeLane a (dodge a obstacles peers).
Proof.
  unfold dodge, via_changeLane.
  destruct (Qltb 0 (laneChangeCooldown a)); [now left|].
  destruct (sortBy _ _) as [|best rest]; [now left|].
  right. now exists best.
Qed.

Lemma planOvertake_shape (a : AICar) player peers :
  via_changeLane a (planOvertake a player peers).
Proof.
  unfold planOvertake, via_changeLane.
  destruct (Qltb 0 (laneChangeCooldown a)); [now left|].
  destruct (filter _ _) as [|first rest]; [now left|].
  right. eexists. reflexivity.
Qed.

Lemma planBlock_shape (a : AICar) player peers :
  via_changeLane a (planBlock a player peers).
Proof.
  unfold planBlock, via_changeLane.
  destruct (Qltb 0 (laneChangeCooldown a)); [now left|].
  destruct (negb _); [right; eexists; reflexivity | now left].
Qed.

(** Fields no lane-change commit touches. *)
Lemma via_changeLane_frame (a a' : AICar) :
  via_changeLane a a' ->
  state a' = state a /\ stateTimer a' = stateTimer a /\
  blockTimer a' = blockTimer a /\ lane a' = lane a /\
  aggression a' = aggression a /\ reactionTime a' = reactionTime a /\
  LANE_CHANGE_COOLDOWN a' = LANE_CHANGE_COOLDOWN a.
Proof.
  intros [-> | [n ->]]; [repeat split|].
  destruct (changeLane_cases a n) as [[_ ->] | (_ & _ & ->)]; repeat split.
Qed.

(** A commit either keeps the target lane and the cooldown, or moves the
    target to an in-range lane and restarts the cooldown. *)
Lemma via_changeLane_target (a a' : AICar) :
  via_changeLane a a' ->
  (targetLane a' = targetLane a /\
   laneChangeCooldown a' = laneChangeCooldown a) \/
  (lane_in_range (targetLane a') /\ targetLane a' <> targetLane a /\
   laneChangeCooldown a' = LANE_CHANGE_COOLDOWN a).
Proof.
  intros [-> | [n ->]]; [now left|].
  destruct (changeLane_cases a n) as [[_ ->] | (Hr & Hn & ->)];
    [now left | right]; simpl; repeat split; try apply Hr; assumption.
Qed.

(** ** The lane-change commit (C10) *)

(** C10: [_changeLane] called with the current [targetLane], or with an
    index outside {0,1,2}, returns the agent untouched (in particular
    [targetLane] and [laneChangeCooldown] keep their values); called with
    an in-range lane different from [targetLane] it commits that lane and
    restarts the cooldown; hence the cooldown can only change when
    [targetLane] moves to a different in-range lane. *)
Theorem changeLane_noop_or_commit (a : AICar) (n : Z) :
  ((n = targetLane a \/ (n < 0)%Z \/ (2 < n)%Z) -> changeLane a n = a) /\
  ((0 <= n <= 2)%Z -> n <> targetLane a ->
     targetLane (changeLane a n) = n /\
     laneChangeCooldown (changeLane a n) = LANE_CHANGE_COOLDOWN a) /\
  (laneChangeCooldown (changeLane a n) <> laneChangeCooldown a ->
     lane_in_range n /\ n <> targetLane a /\
     targetLane (changeLane a n) = n).
Proof.
  destruct (changeLane_cases a n) as [[Hout Heq] | (Hr & Hn & Heq)];
    rewrite Heq; simpl.
  - split; [reflexivity|]. split.
    + intros Hin Hne. lia.
    + intros Hch. now elim Hch.
  - split; [intros [H | [H | H]]; [congruence | lia | lia]|].
    split; [intros _ _; split; reflexivity|].
    intros _. unfold lane_in_range. repeat split; try lia; assumption.
Qed.

Lemma changeLane_noop_or_commit_witness :
  changeLane (car_with 1 1 600 (1 # 2)) 7 = car_with 1 1 600 (1 # 2) /\
  targetLane (changeLane (car_with 1 1 600 (1 # 2)) 2) = 2%Z.
Proof.
  split.
  - apply (proj1 (changeLane_noop_or_commit (car_with 1 1 600 (1 # 2)) 7)).
    right; right; reflexivity.
  - apply (proj1 (proj2 (changeLane_noop_or_commit (car_with 1 1 600 (1 # 2)) 2))).
    + split; discriminate.
    + discriminate.
Defined.

(** ** Cooldown enforcement (C6) *)

(** C6: while [laneChangeCooldown > 0] none of the three planners, and no
    think cycle (whatever transition it takes), changes [targetLane]. *)
Theorem cooldown_blocks_planners (a : AICar) (player : Player.t)
    (obstacles : list Obstacle.t) (peers : list AICar) :
  0 < laneChangeCooldown a ->
  targetLane (dodge a obstacles peers) = targetLane a /\
  targetLane (planOvertake a player peers) = targetLane a /\
  targetLane (planBlock a player peers) = targetLane a /\
  targetLane (think a player obstacles peers) = targetLane a.
Proof.
  intro Hcd. apply Qltb_true in Hcd.
  assert (Hd : forall b, laneChangeCooldown b = laneChangeCooldown a ->
                         dodge b obstacles peers = b).
  { intros b Hb. unfold dodge. now rewrite Hb, Hcd. }
  assert (Ho : forall b, laneChangeCooldown b = laneChangeCooldown a ->
                         planOvertake b player peers = b).
  { intros b Hb. unfold planOvertake. now rewrite Hb, Hcd. }
  assert (Hb : forall b, laneChangeCooldown b = laneChangeCooldown a ->
                         planBlock b player peers = b).
  { intros b Hb. unfold planBlock. now rewrite Hb, Hcd. }
  rewrite Hd, Ho, Hb by reflexivity. repeat split.
  unfold think, thinkDefault.
  repeat match goal with
  | |- context [if ?c then _ else _] => destruct c
  end;
  try rewrite Hd by reflexivity; try rewrite Ho by reflexivity;
  try rewrite Hb by reflexivity; reflexivity.
Qed.

Lemma cooldown_blocks_planners_witness :
  state (think (set_laneChangeCooldown (car_with 1 1 600 (1 # 2)) 0.5)
           (player_at 600 0) [Obstacle.mk 240 560 32] []) = DODGE /\
  targetLane (think (set_laneChangeCooldown (car_with 1 1 600 (1 # 2)) 0.5)
                (player_at 600 0) [Obstacle.mk 240 560 32] [])
    = targetLane (set_laneChangeCooldown (car_with 1 1 600 (1 # 2)) 0.5).
Proof.
  split; [reflexivity|].
  apply (cooldown_blocks_planners
           (set_laneChangeCooldown (car_with 1 1 600 (1 # 2)) 0.5)
           (player_at 600 0) [Obstacle.mk 240 560 32] []).
  reflexivity.
Defined.

(** ** The think cycle *)

(** A think cycle is a sequence of field writes that leave the lanes, the
    cooldown and the personality alone, followed by at most one planner. *)
Lemma think_shape (a : AICar) player obstacles peers :
  exists b,
    via_changeLane b (think a player obstacles peers) /\
    lane b = lane a /\ targetLane b = targetLane a /\
    laneChangeCooldown b = laneChangeCooldown a /\
    LANE_CHANGE_COOLDOWN b = LANE_CHANGE_COOLDOWN a /\
    aggression b = aggression a /\ reactionTime b = reactionTime a.
Proof.
  unfold think, thinkDefault.
  repeat match goal with
  | |- context [if ?c then _ else _] => destruct c
  end;
  eexists;
  (split;
   [ first [ apply dodge_shape | apply planBlock_shape
           | apply planOvertake_shape | left; reflexivity ]
   | repeat split ]).
Qed.



(** ** Aggression thresholds (C8) *)

(** C8, as stated, fails: the scenario's agent (aggression 0.90, player
    60 units away, not in BLOCK, block cooldown 0, no hazard) is behind
    the player by more than 40, so the catch-up rule, which is checked
    first, sends it to ACCELERATE and not to BLOCK. *)
Lemma block_scenario_preempted :
  aggression (car_with 1 1 540 (10 # 11)) == 0.90 /\
  Qabs (y (car_with 1 1 540 (10 # 11)) - Player.y (player_at 600 0)) < 140 /\
  state (car_with 1 1 540 (10 # 11)) <> BLOCK /\
  blockTimer (car_with 1 1 540 (10 # 11)) == 0 /\
  state (think (car_with 1 1 540 (10 # 11)) (player_at 600 0) [] [])
    = ACCELERATE /\
  state (think (car_with 1 1 540 (10 # 11)) (player_at 600 0) [] [])
    <> BLOCK.
Proof.
  repeat split; try reflexivity; discriminate.
Qed.

(** C8, amended: in a think cycle in which neither earlier rule fires (no
    hazard transition, and [y - player.y >= -40]) and the player is within
    140 vertical units, an agent with aggression above 0.82 (0.90 in the
    scenario), not in BLOCK and with block cooldown at most 0 ends in
    BLOCK with state timer 1.4 and block cooldown 3.0; an agent with
    aggression in (0.65, 0.82] (0.70 in the scenario), not in OVERTAKE,
    ends in OVERTAKE with state timer 1.0. *)
Theorem aggression_thresholds (a : AICar) (player : Player.t)
    (obstacles : list Obstacle.t) (peers : list AICar) :
  scanObstacle a obstacles = false \/ state a = DODGE ->
  -40 <= y a - Player.y player ->
  Qabs (y a - Player.y player) < 140 ->
  (0.82 < aggression a -> state a <> BLOCK -> blockTimer a <= 0 ->
     state (think a player obstacles peers) = BLOCK /\
     stateTimer (think a player obstacles peers) == 1.4 /\
     blockTimer (think a player obstacles peers) == 3.0) /\
  (0.65 < aggression a -> aggression a <= 0.82 -> state a <> OVERTAKE ->
     state (think a player obstacles peers) = OVERTAKE /\
     stateTimer (think a player obstacles peers) == 1.0).
Proof.
  intros Hhaz Hdelta Hnear.
  assert (Hgate : scanObstacle a obstacles
                  && negb (State_eqb (state a) DODGE) = false).
  { destruct Hhaz as [-> | ->]; [reflexivity | apply andb_false_r]. }
  apply Qltb_false in Hdelta. apply Qltb_true in Hnear.
  unfold think.
  change (scanObstacle (set_reactionTimer a (reactionTime a)) obstacles)
    with (scanObstacle a obstacles).
  change (state (set_reactionTimer a (reactionTime a))) with (state a).
  change (y (set_reactionTimer a (reactionTime a))) with (y a).
  change (aggression (set_reactionTimer a (reactionTime a)))
    with (aggression a).
  change (blockTimer (set_reactionTimer a (reactionTime a)))
    with (blockTimer a).
  rewrite Hgate, Hdelta, Hnear.
  split.
  - intros Hagg Hst Hbt.
    apply Qltb_true in Hagg. apply State_eqb_neq in Hst.
    apply Qle_bool_iff in Hbt. rewrite Hagg, Hst, Hbt. simpl andb. cbv iota.
    match goal with
    | |- context [planBlock ?b player peers] =>
        destruct (via_changeLane_frame b _ (planBlock_shape b player peers))
          as (Hs & Ht & Hb & _)
    end.
    rewrite Hs, Ht, Hb. simpl. repeat split; reflexivity.
  - intros Hlo Hhi Hst.
    apply Qltb_true in Hlo. apply Qltb_false in Hhi.
    apply State_eqb_neq in Hst. rewrite Hhi, Hlo, Hst. simpl andb. cbv iota.
    match goal with
    | |- context [planOvertake ?b player peers] =>
        destruct (via_changeLane_frame b _ (planOvertake_shape b player peers))
          as (Hs & Ht & _)
    end.
    rewrite Hs, Ht. simpl. split; reflexivity.
Qed.

Lemma aggression_thresholds_witness :
  state (think (car_with 1 1 600 (10 # 11)) (player_at 600 0) [] []) = BLOCK /\
  state (think (car_with 1 1 600 (6 # 11)) (player_at 600 0) [] []) = OVERTAKE.
Proof.
  split.
  - apply (proj1 (aggression_thresholds (car_with 1 1 600 (10 # 11))
                    (player_at 600 0) [] []
                    (or_introl eq_refl) ltac:(discriminate) eq_refl)).
    + reflexivity.
    + discriminate.
    + discriminate.
  - apply (proj2 (aggression_thresholds (car_with 1 1 600 (6 # 11))
                    (player_at 600 0) [] []
                    (or_introl eq_refl) ltac:(discriminate) eq_refl)).
    + reflexivity.
    + discriminate.
    + discriminate.
Defined.

(** ** The rubber-band regulator (C1) *)

(** [Math.floor(Math.random() * 3)] is a lane index. *)
Lemma floor_draw_lane (r : Q) :
  unit_draw r -> lane_in_range (Qfloor (r * 3)).
Proof.
  intros [H0 H1]. unfold lane_in_range.
  pose proof (Qfloor_le (r * 3)) as Hlo.
  pose proof (Qlt_floor (r * 3)) as Hhi.
  assert (Ha : inject_Z 0 < inject_Z (Qfloor (r * 3) + 1)).
  { apply Qle_lt_trans with (r * 3); [|exact Hhi].
    change (inject_Z 0) with 0. lra. }
  assert (Hb : inject_Z (Qfloor (r * 3)) < inject_Z 3).
  { apply Qle_lt_trans with (r * 3); [exact Hlo|].
    change (inject_Z 3) with 3. lra. }
  rewrite <- Zlt_Qlt in Ha, Hb. lia.
Qed.

(** C1: what one regulator pass does to an agent with
    [y - player.y < -80].  The lane is freshly drawn in {0,1,2}, the
    state is CRUISE, the player-behind flag is cleared and the multiplier
    is 1.0; but the agent lands between 740 and 1040 units on the negative
    side of the player, so [y - player.y >= 0] does not hold, and the
    reset condition [y - player.y < -80] still holds after the pass. *)
Theorem rubber_band_reset (a : AICar) (player : Player.t) (gameSpeed : Q)
    (d : RespawnDraws) :
  y a - Player.y player < -80 ->
  respawn_draws_ok d ->
  -1040 < y (updateRubberBand a player gameSpeed d) - Player.y player /\
  y (updateRubberBand a player gameSpeed d) - Player.y player <= -740 /\
  ~ 0 <= y (updateRubberBand a player gameSpeed d) - Player.y player /\
  y (updateRubberBand a player gameSpeed d) - Player.y player < -80 /\
  lane (updateRubberBand a player gameSpeed d) = Qfloor (draw_lane d * 3) /\
  lane_in_range (lane (updateRubberBand a player gameSpeed d)) /\
  targetLane (updateRubberBand a player gameSpeed d)
    = lane (updateRubberBand a player gameSpeed d) /\
  state (updateRubberBand a player gameSpeed d) = CRUISE /\
  playerBehind (updateRubberBand a player gameSpeed d) = false /\
  rubberBandMult (updateRubberBand a player gameSpeed d) == 1.0.
Proof.
  intros Hbehind [[Hy0 Hy1] Hl].
  assert (Hfar : Qltb 220 (y a - Player.y player) = false)
    by (apply Qltb_false; lra).
  apply Qltb_true in Hbehind.
  unfold updateRubberBand. rewrite Hfar, Hbehind. simpl.
  repeat match goal with |- _ /\ _ => split end;
    try reflexivity; try lra.
  apply floor_draw_lane, Hl.
Qed.

Lemma rubber_band_reset_witness :
  y (car_with 1 1 500 (1 # 2)) - Player.y (player_at 600 1) < -80 /\
  ~ 0 <= y (updateRubberBand (car_with 1 1 500 (1 # 2)) (player_at 600 1)
              300 (mkRespawnDraws (1 # 2) (1 # 2)))
         - Player.y (player_at 600 1).
Proof.
  split; [reflexivity|].
  apply (rubber_band_reset (car_with 1 1 500 (1 # 2)) (player_at 600 1) 300
           (mkRespawnDraws (1 # 2) (1 # 2))).
  - reflexivity.
  - repeat split; discriminate.
Defined.

(** ** The lane bound invariant (C7) *)

Lemma newAICar_lanes_ok id lane0 y0 centers d :
  lane_in_range lane0 -> lanes_ok (newAICar id lane0 y0 centers d).
Proof. intro H. split; exact H. Qed.

Lemma updateRubberBand_lanes_ok a player gameSpeed d :
  respawn_draws_ok d -> lanes_ok a ->
  lanes_ok (updateRubberBand a player gameSpeed d).
Proof.
  intros [_ Hl] Hok. unfold updateRubberBand.
  destruct (Qltb 220 _); [exact Hok|].
  destruct (Qltb _ (-80)); [|exact Hok].
  split; simpl; apply floor_draw_lane, Hl.
Qed.

Lemma updateRegulate_lanes_ok a dt gameSpeed player d :
  respawn_draws_ok d -> lanes_ok a ->
  lanes_ok (updateRegulate a dt gameSpeed player d).
Proof.
  intros Hd Hok. unfold updateRegulate.
  apply updateRubberBand_lanes_ok; [exact Hd|].
  destruct (Qltb 0 _); exact Hok.
Qed.

Lemma think_lanes_ok a player obstacles peers :
  lanes_ok a -> lanes_ok (think a player obstacles peers).
Proof.
  intros [Hl Ht].
  destruct (think_shape a player obstacles peers)
    as (b & Hvia & Hlb & Htb & _).
  destruct (via_changeLane_frame _ _ Hvia) as (_ & _ & _ & Hlane & _).
  split; [rewrite Hlane, Hlb; exact Hl|].
  destruct (via_changeLane_target _ _ Hvia) as [[Hsame _] | [Hin _]];
    [rewrite Hsame, Htb; exact Ht | exact Hin].
Qed.

Lemma updateThink_lanes_ok a dt player obstacles peers :
  lanes_ok a -> lanes_ok (updateThink a dt player obstacles peers).
Proof.
  intro Hok. unfold updateThink.
  destruct (Qltb 0 _); [exact Hok | now apply think_lanes_ok].
Qed.

Lemma applyMovement_lanes_ok a dt gameSpeed :
  lanes_ok a -> lanes_ok (applyMovement a dt gameSpeed).
Proof.
  intros [Hl Ht]. unfold applyMovement. simpl.
  destruct (laneCenter _ _); [|split; assumption].
  destruct (x a); [|split; assumption].
  destruct (Qle_bool _ _); split; assumption.
Qed.

Lemma applyOp_lanes_ok a op :
  op_draws_ok op -> lanes_ok a -> lanes_ok (applyOp a op).
Proof.
  destruct op as [dt gameSpeed player obstacles peers d | amount
                 | player gameSpeed d]; simpl; intros Hd Hok.
  - unfold update.
    apply applyMovement_lanes_ok, updateThink_lanes_ok,
      updateRegulate_lanes_ok; assumption.
  - exact Hok.
  - now apply updateRubberBand_lanes_ok.
Qed.

Lemma run_lanes_ok ops : forall a,
  Forall op_draws_ok ops -> lanes_ok a -> lanes_ok (run a ops).
Proof.
  induction ops as [|op ops IH]; intros a Hall Hok; [exact Hok|].
  inversion Hall as [|? ? Hop Hrest]; subst. simpl.
  apply IH; [exact Hrest | now apply applyOp_lanes_ok].
Qed.

(** C7: a car constructed with a lane index in {0,1,2} keeps [lane] and
    [targetLane] in {0,1,2} through every sequence of [update], [scroll]
    and regulator passes (the draws of [Math.random] lying in [0,1)). *)
Theorem lane_bound_invariant (id : nat) (lane0 : Z) (y0 : Q)
    (centers : list Q) (d : CtorDraws) (ops : list Op) :
  lane_in_range lane0 ->
  Forall op_draws_ok ops ->
  lane_in_range (lane (run (newAICar id lane0 y0 centers d) ops)) /\
  lane_in_range (targetLane (run (newAICar id lane0 y0 centers d) ops)).
Proof.
  intros Hl Hops.
  apply (run_lanes_ok ops); [exact Hops | now apply newAICar_lanes_ok].
Qed.

Lemma lane_bound_invariant_witness :
  lane_in_range
    (lane (run (newAICar 1 2 (-120) LANE_CENTERS (mkCtorDraws 0 (10 # 11) (1 # 2)))
               [OpUpdate (1 # 60) 300 (player_at 600 1) [] []
                         (mkRespawnDraws (1 # 2) (9 # 10));
                OpScroll 5;
                OpRegulate (player_at 600 1) 300
                           (mkRespawnDraws (1 # 3) (1 # 10))])).
Proof.
  apply (lane_bound_invariant 1 2 (-120) LANE_CENTERS
           (mkCtorDraws 0 (10 # 11) (1 # 2))
           [OpUpdate (1 # 60) 300 (player_at 600 1) [] []
                     (mkRespawnDraws (1 # 2) (9 # 10));
            OpScroll 5;
            OpRegulate (player_at 600 1) 300
                       (mkRespawnDraws (1 # 3) (1 # 10))]).
  - split; discriminate.
  - repeat constructor; discriminate.
Defined.

(** ** Lane occupancy (C5) *)

Lemma absDiffLt_true (u v : option Q) (bound : Q) :
  absDiffLt u v bound = true <->
  exists u' v', u = Some u' /\ v = Some v' /\ Qabs (u' - v') < bound.
Proof.
  unfold absDiffLt. destruct u as [u'|], v as [v'|]; split;
    try discriminate; try (intros (? & ? & ? & ? & _); discriminate).
  - intro H. exists u', v'. repeat split. now apply Qltb_true.
  - intros (p & q & Hp & Hq & H). injection Hp as <-. injection Hq as <-.
    now apply Qltb_true.
Qed.

(** C5: [_laneOccupied(l, peers)] answers true exactly when some peer
    other than the agent itself is vertically closer than 80 and either
    horizontally closer than 44 to the centre of lane [l] or has
    [targetLane = l].  In particular a peer that committed to lane 1 while
    its [x] is still at the centre of lane 0 occupies lane 1 for a nearby
    agent, although it is 160 units off that lane's centre. *)
Theorem laneOccupied_dual_check :
  (forall (a : AICar) (l : Z) (peers : list AICar),
     laneOccupied a l peers = true <->
     exists p, In p peers /\ occupies a l p) /\
  (lane (changeLane (car_with 2 0 600 (1 # 2)) 1) = 0%Z /\
   targetLane (changeLane (car_with 2 0 600 (1 # 2)) 1) = 1%Z /\
   absDiffLt (x (changeLane (car_with 2 0 600 (1 # 2)) 1))
             (laneCenter LANE_CENTERS 1) 44 = false /\
   laneOccupied (car_with 1 2 560 (1 # 2)) 1
     [changeLane (car_with 2 0 600 (1 # 2)) 1; car_with 1 2 560 (1 # 2)]
     = true).
Proof.
  split; [|repeat split; reflexivity].
  intros a l peers. unfold laneOccupied, occupies.
  rewrite existsb_exists. split.
  - intros (p & Hin & Hp). exists p. split; [exact Hin|].
    apply andb_prop in Hp as [Hp Hlane].
    apply andb_prop in Hp as [Hid Hy].
    apply negb_true_iff, Nat.eqb_neq in Hid. apply Qltb_true in Hy.
    repeat split; try assumption.
    apply orb_prop in Hlane as [Hx | Ht].
    + left. now apply absDiffLt_true in Hx.
    + right. now apply Z.eqb_eq.
  - intros (p & Hin & Hid & Hy & Hlane). exists p. split; [exact Hin|].
    apply andb_true_intro; split; [apply andb_true_intro; split|].
    + now apply negb_true_iff, Nat.eqb_neq.
    + now apply Qltb_true.
    + apply orb_true_intro. destruct Hlane as [Hx | Ht].
      * left. now apply absDiffLt_true.
      * right. now apply Z.eqb_eq.
Qed.

(** ** The hazard scans (C2) *)

(** C2, as stated, fails twice.  The scan at the agent's own position
    uses the wider margin [width * 0.6]: an obstacle 32 units off the
    centre of the agent's lane is reported although the specification's
    bound is 30.8.  And the vertical window is open: an obstacle exactly
    at [y + height], on the lane centre, is inside the specification's
    closed window but is not reported by the lane scan. *)
Lemma hazard_scan_differs :
  (scanObstacle (car_with 1 0 600 (1 # 2)) [Obstacle.mk 112 550 32] = true /\
   ~ spec_blocked (car_with 1 0 600 (1 # 2))
                  (lane (car_with 1 0 600 (1 # 2)))
                  [Obstacle.mk 112 550 32]) /\
  (hasObstacle (car_with 1 0 600 (1 # 2)) 0 [Obstacle.mk 80 662 32] = false /\
   spec_blocked (car_with 1 0 600 (1 # 2)) 0 [Obstacle.mk 80 662 32]).
Proof.
  split; split; try reflexivity.
  - intros (o & lx & Hin & Hlc & Habs & _).
    destruct Hin as [<- | []]. injection Hlc as <-.
    vm_compute in Habs. discriminate.
  - exists (Obstacle.mk 80 662 32), 80.
    repeat split; try (now left); discriminate.
Qed.

(** C2, amended: the scan of lane [l] made by the dodge planner reports a
    hazard exactly when some obstacle is horizontally closer than
    [width*0.5 + obstacle.width*0.4] to the centre of lane [l] and
    vertically strictly inside [(y - lookAhead, y + height)]; the scan at
    the agent's own position, which triggers the dodge, measures from the
    agent's [x] with margin [width*0.6 + obstacle.width*0.4] over the same
    open window. *)
Theorem hazard_scans (a : AICar) (l : Z) (obstacles : list Obstacle.t) :
  (hasObstacle a l obstacles = true <->
   exists o lx,
     In o obstacles /\ laneCenter (laneCenters a) l = Some lx /\
     Qabs (Obstacle.x o - lx) < width a * 0.5 + Obstacle.width o * 0.4 /\
     y a - lookAhead a < Obstacle.y o /\ Obstacle.y o < y a + height a) /\
  (scanObstacle a obstacles = true <->
   exists o cx,
     In o obstacles /\ x a = Some cx /\
     Qabs (Obstacle.x o - cx) < width a * 0.6 + Obstacle.width o * 0.4 /\
     y a - lookAhead a < Obstacle.y o /\ Obstacle.y o < y a + height a).
Proof.
  unfold hasObstacle, scanObstacle. rewrite !existsb_exists.
  split; split.
  - intros (o & Hin & Ho).
    apply andb_prop in Ho as [Ho Hhi]. apply andb_prop in Ho as [Hx Hlo].
    apply absDiffLt_true in Hx as (u & lx & Hu & Hlx & Hx).
    injection Hu as <-. apply Qltb_true in Hlo, Hhi.
    exists o, lx. repeat split; assumption.
  - intros (o & lx & Hin & Hlx & Hx & Hlo & Hhi). exists o.
    split; [exact Hin|]. rewrite Hlx.
    apply andb_true_intro; split; [apply andb_true_intro; split|].
    + apply absDiffLt_true. exists (Obstacle.x o), lx. now repeat split.
    + now apply Qltb_true.
    + now apply Qltb_true.
  - intros (o & Hin & Ho).
    apply andb_prop in Ho as [Ho Hhi]. apply andb_prop in Ho as [Hx Hlo].
    apply absDiffLt_true in Hx as (u & cx & Hu & Hcx & Hx).
    injection Hu as <-. apply Qltb_true in Hlo, Hhi.
    exists o, cx. repeat split; assumption.
  - intros (o & cx & Hin & Hcx & Hx & Hlo & Hhi). exists o.
    split; [exact Hin|]. rewrite Hcx.
    apply andb_true_intro; split; [apply andb_true_intro; split|].
    + apply absDiffLt_true. exists (Obstacle.x o), cx. now repeat split.
    + now apply Qltb_true.
    + now apply Qltb_true.
Qed.

(** ** Frame facts for [update] *)

Lemma updateRubberBand_frame a player gameSpeed d :
  aggression (updateRubberBand a player gameSpeed d) = aggression a /\
  reactionTime (updateRubberBand a player gameSpeed d) = reactionTime a /\
  laneChangeCooldown (updateRubberBand a player gameSpeed d)
    = laneChangeCooldown a /\
  LANE_CHANGE_COOLDOWN (updateRubberBand a player gameSpeed d)
    = LANE_CHANGE_COOLDOWN a.
Proof.
  unfold updateRubberBand.
  destruct (Qltb 220 _); [repeat split|].
  destruct (Qltb _ (-80)); repeat split.
Qed.

Lemma updateThink_frame a dt player obstacles peers :
  aggression (updateThink a dt player obstacles peers) = aggression a /\
  reactionTime (updateThink a dt player obstacles peers) = reactionTime a /\
  LANE_CHANGE_COOLDOWN (updateThink a dt player obstacles peers)
    = LANE_CHANGE_COOLDOWN a /\
  (targetLane (updateThink a dt player obstacles peers) <> targetLane a ->
   laneChangeCooldown (updateThink a dt player obstacles peers)
     = LANE_CHANGE_COOLDOWN a).
Proof.
  unfold updateThink. destruct (Qltb 0 _).
  - repeat split. intro H. now elim H.
  - destruct (think_shape a player obstacles peers)
      as (b & Hvia & _ & Htb & _ & Hlcc & Hagg & Hrt).
    destruct (via_changeLane_frame _ _ Hvia)
      as (_ & _ & _ & _ & Hagg' & Hrt' & Hlcc').
    repeat split; try congruence.
    intro Hch.
    destruct (via_changeLane_target _ _ Hvia) as [[Hsame _] | (_ & _ & Hcd)];
      congruence.
Qed.

Lemma applyMovement_frame a dt gameSpeed :
  aggression (applyMovement a dt gameSpeed) = aggression a /\
  reactionTime (applyMovement a dt gameSpeed) = reactionTime a /\
  targetLane (applyMovement a dt gameSpeed) = targetLane a /\
  laneChangeCooldown (applyMovement a dt gameSpeed) = laneChangeCooldown a /\
  LANE_CHANGE_COOLDOWN (applyMovement a dt gameSpeed)
    = LANE_CHANGE_COOLDOWN a.
Proof.
  unfold applyMovement. simpl.
  destruct (laneCenter _ _); [|repeat split].
  destruct (x a); [|repeat split].
  destruct (Qle_bool _ _); repeat split.
Qed.

Lemma updateRegulate_scaling a dt gameSpeed player d :
  aggression (updateRegulate a dt gameSpeed player d) = aggression a /\
  reactionTime (updateRegulate a dt gameSpeed player d)
    = Qmax 0 (reactionTime a * (1 - speedT gameSpeed * 0.3)) /\
  LANE_CHANGE_COOLDOWN (updateRegulate a dt gameSpeed player d)
    = Qmax 0.8 (1.5 - speedT gameSpeed * 0.5).
Proof.
  unfold updateRegulate.
  match goal with
  | |- context [updateRubberBand ?b player gameSpeed d] =>
      destruct (updateRubberBand_frame b player gameSpeed d)
        as (Ha & Hr & _ & Hl)
  end.
  rewrite Ha, Hr, Hl.
  destruct (Qltb 0 _); repeat split.
Qed.

Lemma update_scaling a dt gameSpeed player obstacles peers d :
  aggression (update a dt gameSpeed player obstacles peers d) = aggression a /\
  reactionTime (update a dt gameSpeed player obstacles peers d)
    = Qmax 0 (reactionTime a * (1 - speedT gameSpeed * 0.3)) /\
  LANE_CHANGE_COOLDOWN (update a dt gameSpeed player obstacles peers d)
    = Qmax 0.8 (1.5 - speedT gameSpeed * 0.5).
Proof.
  unfold update.
  destruct (updateRegulate_scaling a dt gameSpeed player d) as (Ha & Hr & Hl).
  destruct (updateThink_frame (updateRegulate a dt gameSpeed player d) dt
              player obstacles peers) as (Ha' & Hr' & Hl' & _).
  destruct (applyMovement_frame
              (updateThink (updateRegulate a dt gameSpeed player d) dt
                 player obstacles peers) dt gameSpeed)
    as (Ha'' & Hr'' & _ & _ & Hl'').
  repeat split; congruence.
Qed.

Lemma update_commit a dt gameSpeed player obstacles peers d :
  targetLane (update a dt gameSpeed player obstacles peers d)
    <> targetLane (updateRegulate a dt gameSpeed player d) ->
  laneChangeCooldown (update a dt gameSpeed player obstacles peers d)
    = LANE_CHANGE_COOLDOWN (update a dt gameSpeed player obstacles peers d).
Proof.
  unfold update.
  generalize (updateRegulate a dt gameSpeed player d). intros b Hch.
  destruct (updateThink_frame b dt player obstacles peers)
    as (_ & _ & Hl & Hcommit).
  destruct (applyMovement_frame (updateThink b dt player obstacles peers)
              dt gameSpeed) as (_ & _ & Htl & Hcd & Hl').
  rewrite Htl in Hch. rewrite Hcd, Hl', Hl. exact (Hcommit Hch).
Qed.


Lemma speedT_le_1 (gameSpeed : Q) : speedT gameSpeed <= 1.
Proof. unfold speedT. apply Q.le_min_r. Qed.

Lemma speedT_at_base (gameSpeed : Q) : gameSpeed == 200 -> speedT gameSpeed == 0.
Proof.
  intro H. unfold speedT. rewrite H.
  reflexivity.
Qed.


Lemma speedT_at_top (gameSpeed : Q) : 600 <= gameSpeed -> speedT gameSpeed == 1.
Proof.
  intro H. unfold speedT. apply Q.min_r.
  setoid_replace 1 with (400 * / 400) by reflexivity.
  unfold Qdiv. apply Qmult_le_compat_r; [lra | discriminate].
Qed.

(** ** Personality traits (C3) *)




(** ** The committed lane-change cooldown (C4) *)

(** C4, as stated, fails: at the base game speed 200 a car that commits a
    lane change inside [update] (here a BLOCK move from lane 1 into the
    player's lane 0) restarts its cooldown at 1.5 s, outside the range
    from 0.75 s to 0.8 s. *)
Lemma committed_cooldown_out_of_range :
  targetLane (updateRegulate (car_with 1 1 600 (10 # 11)) (1 # 60) 200
                (player_at 600 0) (mkRespawnDraws 0 0)) = 1%Z /\
  targetLane (update (car_with 1 1 600 (10 # 11)) (1 # 60) 200
                (player_at 600 0) [] [] (mkRespawnDraws 0 0)) = 0%Z /\
  laneChangeCooldown (update (car_with 1 1 600 (10 # 11)) (1 # 60) 200
                        (player_at 600 0) [] [] (mkRespawnDraws 0 0))
    == 1.5 /\
  ~ spec_cooldown_range
      (laneChangeCooldown (update (car_with 1 1 600 (10 # 11)) (1 # 60) 200
                             (player_at 600 0) [] [] (mkRespawnDraws 0 0))).
Proof.
  repeat split; try reflexivity.
  intros [_ H]. vm_compute in H. now apply H.
Qed.

(** C4, amended: every [update] sets the cooldown duration to
    [max(0.8, 1.5 - 0.5 * speedT)] before any lane change can commit, so
    the constructor's 0.75 is never used; since [speedT <= 1] this value is
    at least 1.0 for every game speed (1.5 at game speed 200, 1.0 from game
    speed 600 on) and the floor 0.8 is never reached; a lane change
    committed by the think cycle of that [update] leaves
    [laneChangeCooldown] equal to this duration. *)
Theorem committed_cooldown (a : AICar) (dt gameSpeed : Q) (player : Player.t)
    (obstacles : list Obstacle.t) (peers : list AICar) (d : RespawnDraws) :
  LANE_CHANGE_COOLDOWN (update a dt gameSpeed player obstacles peers d)
    == Qmax 0.8 (1.5 - speedT gameSpeed * 0.5) /\
  1 <= LANE_CHANGE_COOLDOWN (update a dt gameSpeed player obstacles peers d) /\
  (gameSpeed == 200 ->
   LANE_CHANGE_COOLDOWN (update a dt gameSpeed player obstacles peers d)
     == 1.5) /\
  (600 <= gameSpeed ->
   LANE_CHANGE_COOLDOWN (update a dt gameSpeed player obstacles peers d)
     == 1) /\
  (targetLane (update a dt gameSpeed player obstacles peers d)
     <> targetLane (updateRegulate a dt gameSpeed player d) ->
   laneChangeCooldown (update a dt gameSpeed player obstacles peers d)
     = LANE_CHANGE_COOLDOWN (update a dt gameSpeed player obstacles peers d)
   /\ 1 <= laneChangeCooldown
             (update a dt gameSpeed player obstacles peers d)).
Proof.
  destruct (update_scaling a dt gameSpeed player obstacles peers d)
    as (_ & _ & Hlcc).
  pose proof (speedT_le_1 gameSpeed) as Ht.
  assert (Hone : 1 <= Qmax 0.8 (1.5 - speedT gameSpeed * 0.5)).
  { apply Qle_trans with (1.5 - speedT gameSpeed * 0.5);
      [lra | apply Q.le_max_r]. }
  split; [rewrite Hlcc; reflexivity|].
  split; [rewrite Hlcc; exact Hone|].
  split; [|split].
  - intro Hbase. rewrite Hlcc, (speedT_at_base _ Hbase). reflexivity.
  - intro Htop. rewrite Hlcc, (speedT_at_top _ Htop). reflexivity.
  - intro Hch. rewrite (update_commit _ _ _ _ _ _ _ Hch), Hlcc.
    split; [reflexivity | exact Hone].
Qed.

Lemma committed_cooldown_witness :
  1 <= laneChangeCooldown (update (car_with 1 1 600 (10 # 11)) (1 # 60) 200
                             (player_at 600 0) [] [] (mkRespawnDraws 0 0)).
Proof.
  apply (proj2 (proj2 (proj2 (proj2
          (committed_cooldown (car_with 1 1 600 (10 # 11)) (1 # 60) 200
             (player_at 600 0) [] [] (mkRespawnDraws 0 0)))))).
  intro H. vm_compute in H. discriminate.
Defined.

(** * Further properties of the engine *)

(** ** The movement integrator *)

Lemma Qabs_cases (t : Q) :
  (0 <= t /\ Qabs t == t) \/ (t < 0 /\ Qabs t == - t).
Proof.
  destruct (Qlt_le_dec t 0) as [Hneg | Hpos].
  - right. split; [exact Hneg|]. apply Qabs_neg. lra.
  - left. split; [exact Hpos|]. now apply Qabs_pos.
Qed.

Lemma Qsign_cases (t : Q) :
  (0 < t /\ Qsign t = 1) \/ (t < 0 /\ Qsign t = -1) \/ (t == 0 /\ Qsign t = 0).
Proof.
  unfold Qsign.
  destruct (Qltb 0 t) eqn:Hp; [left; split; [now apply Qltb_true|reflexivity]|].
  destruct (Qltb t 0) eqn:Hn.
  - right; left. split; [now apply Qltb_true | reflexivity].
  - right; right. apply Qltb_false in Hp, Hn. split; [lra | reflexivity].
Qed.

(** The lateral half of [_applyMovement], case by case. *)
Lemma applyMovement_lateral (a : AICar) (dt gameSpeed : Q) :
  match laneCenter (laneCenters a) (targetLane a), x a with
  | Some tx, Some cx =>
      if Qle_bool (Qabs (tx - cx)) (LATERAL_SPEED a * dt)
      then x (applyMovement a dt gameSpeed) = Some tx /\
           lane (applyMovement a dt gameSpeed) = targetLane a
      else x (applyMovement a dt gameSpeed)
             = Some (cx + Qsign (tx - cx) * (LATERAL_SPEED a * dt)) /\
           lane (applyMovement a dt gameSpeed) = lane a
  | _, _ => x (applyMovement a dt gameSpeed) = None /\
            lane (applyMovement a dt gameSpeed) = lane a
  end.
Proof.
  unfold applyMovement. cbv zeta.
  cbn [set_y laneCenters targetLane x LATERAL_SPEED].
  destruct (laneCenter (laneCenters a) (targetLane a)) as [tx|];
    [|split; reflexivity].
  destruct (x a) as [cx|]; [|split; reflexivity].
  destruct (Qle_bool (Qabs (tx - cx)) (LATERAL_SPEED a * dt));
    split; reflexivity.
Qed.

(** X1: [_applyMovement] changes [lane] only in the step in which [x]
    lands exactly on the centre of the target lane, and then [lane]
    becomes [targetLane]. *)
Theorem lane_commit_only_on_arrival (a : AICar) (dt gameSpeed : Q) :
  lane (applyMovement a dt gameSpeed) <> lane a ->
  lane (applyMovement a dt gameSpeed) = targetLane a /\
  x (applyMovement a dt gameSpeed)
    = laneCenter (laneCenters a) (targetLane a) /\
  x (applyMovement a dt gameSpeed) <> None.
Proof.
  pose proof (applyMovement_lateral a dt gameSpeed) as Hlat.
  destruct (laneCenter (laneCenters a) (targetLane a)) as [tx|];
    [|intro H; now elim H; apply Hlat].
  destruct (x a) as [cx|]; [|intro H; now elim H; apply Hlat].
  destruct (Qle_bool _ _); destruct Hlat as [Hx Hl]; intro H;
    [|now elim H].
  rewrite Hx. repeat split; [exact Hl | discriminate].
Qed.

Lemma lane_commit_only_on_arrival_witness :
  x (applyMovement (changeLane (car_with 1 1 600 (1 # 2)) 2) 1 300)
    = Some 400.
Proof.
  apply (lane_commit_only_on_arrival
           (changeLane (car_with 1 1 600 (1 # 2)) 2) 1 300).
  intro H. vm_compute in H. discriminate.
Defined.

(** X2: with a non-negative lateral step [LATERAL_SPEED * dt], a car
    whose [x] and target centre are numbers never overshoots: when the
    remaining distance is within the step it snaps onto the centre and
    commits the lane, otherwise the remaining distance shrinks by exactly
    the step and [lane] is untouched. *)
Theorem lateral_step_no_overshoot (a : AICar) (dt gameSpeed cx tx : Q) :
  x a = Some cx ->
  laneCenter (laneCenters a) (targetLane a) = Some tx ->
  0 <= LATERAL_SPEED a * dt ->
  exists nx,
    x (applyMovement a dt gameSpeed) = Some nx /\
    Qabs (tx - nx) <= Qabs (tx - cx) /\
    (Qabs (tx - cx) <= LATERAL_SPEED a * dt ->
       nx = tx /\ lane (applyMovement a dt gameSpeed) = targetLane a) /\
    (LATERAL_SPEED a * dt < Qabs (tx - cx) ->
       Qabs (tx - nx) == Qabs (tx - cx) - LATERAL_SPEED a * dt /\
       lane (applyMovement a dt gameSpeed) = lane a).
Proof.
  intros Hx Ht Hstep.
  pose proof (applyMovement_lateral a dt gameSpeed) as Hlat.
  rewrite Ht, Hx in Hlat.
  destruct (Qle_bool (Qabs (tx - cx)) (LATERAL_SPEED a * dt)) eqn:Hsnap;
    destruct Hlat as [Hnx Hlane]; rewrite Hnx, Hlane.
  - apply Qle_bool_iff in Hsnap. exists tx. split; [reflexivity|].
    split.
    + setoid_replace (tx - tx) with 0 by ring. apply Qabs_nonneg.
    + split; [intros _; split; reflexivity|].
      intro Hfar. exfalso. lra.
  - assert (Hfar : LATERAL_SPEED a * dt < Qabs (tx - cx)).
    { apply Qnot_le_lt. intro Hle. apply Qle_bool_iff in Hle. congruence. }
    eexists. split; [reflexivity|].
    assert (Hrem : Qabs (tx - (cx + Qsign (tx - cx) * (LATERAL_SPEED a * dt)))
                   == Qabs (tx - cx) - LATERAL_SPEED a * dt).
    { destruct (Qabs_cases (tx - cx)) as [[Hd Habs] | [Hd Habs]];
        destruct (Qsign_cases (tx - cx)) as [[Hs ->] | [[Hs ->] | [Hs ->]]];
        try lra.
      - rewrite Qabs_pos; lra.
      - rewrite Qabs_neg; lra. }
    split; [lra|].
    split; [intro Hle; exfalso; lra|].
    intros _. split; [exact Hrem | reflexivity].
Qed.

Lemma lateral_step_no_overshoot_witness :
  exists nx,
    x (applyMovement (changeLane (car_with 1 1 600 (1 # 2)) 2) (1 # 10) 300)
      = Some nx /\
    Qabs (400 - nx) <= Qabs (400 - 240).
Proof.
  destruct (lateral_step_no_overshoot
              (changeLane (car_with 1 1 600 (1 # 2)) 2) (1 # 10) 300 240 400
              eq_refl eq_refl ltac:(discriminate)) as (nx & Hnx & Hle & _).
  exists nx. split; [exact Hnx | exact Hle].
Defined.

(** ** Geometry kept by the think cycle and the integrator *)

Lemma via_changeLane_geometry (a a' : AICar) :
  via_changeLane a a' ->
  oid a' = oid a /\ laneCenters a' = laneCenters a /\
  LATERAL_SPEED a' = LATERAL_SPEED a /\ x a' = x a /\ y a' = y a /\
  rubberBandMult a' = rubberBandMult a /\
  reactionTimer a' = reactionTimer a /\ playerBehind a' = playerBehind a.
Proof.
  intros [-> | [n ->]]; [repeat split|].
  destruct (changeLane_cases a n) as [[_ ->] | (_ & _ & ->)]; repeat split.
Qed.

Lemma think_geometry (a : AICar) player obstacles peers :
  oid (think a player obstacles peers) = oid a /\
  laneCenters (think a player obstacles peers) = laneCenters a /\
  LATERAL_SPEED (think a player obstacles peers) = LATERAL_SPEED a /\
  x (think a player obstacles peers) = x a /\
  y (think a player obstacles peers) = y a /\
  rubberBandMult (think a player obstacles peers) = rubberBandMult a /\
  reactionTimer (think a player obstacles peers) = reactionTime a /\
  playerBehind (think a player obstacles peers) = playerBehind a.
Proof.
  assert (H : exists b,
    via_changeLane b (think a player obstacles peers) /\
    oid b = oid a /\ laneCenters b = laneCenters a /\
    LATERAL_SPEED b = LATERAL_SPEED a /\ x b = x a /\ y b = y a /\
    rubberBandMult b = rubberBandMult a /\
    reactionTimer b = reactionTime a /\ playerBehind b = playerBehind a).
  { unfold think, thinkDefault.
    repeat match goal with
    | |- context [if ?c then _ else _] => destruct c
    end;
    eexists;
    (split;
     [ first [ apply dodge_shape | apply planBlock_shape
             | apply planOvertake_shape | left; reflexivity ]
     | repeat split ]). }
  destruct H as (b & Hvia & H1 & H2 & H3 & H4 & H5 & H6 & H7 & H8).
  destruct (via_changeLane_geometry _ _ Hvia)
    as (G1 & G2 & G3 & G4 & G5 & G6 & G7 & G8).
  repeat split; congruence.
Qed.

Lemma updateThink_geometry (a : AICar) dt player obstacles peers :
  oid (updateThink a dt player obstacles peers) = oid a /\
  laneCenters (updateThink a dt player obstacles peers) = laneCenters a /\
  LATERAL_SPEED (updateThink a dt player obstacles peers) = LATERAL_SPEED a /\
  x (updateThink a dt player obstacles peers) = x a /\
  y (updateThink a dt player obstacles peers) = y a /\
  rubberBandMult (updateThink a dt player obstacles peers)
    = rubberBandMult a /\
  playerBehind (updateThink a dt player obstacles peers) = playerBehind a.
Proof.
  unfold updateThink. destruct (Qltb 0 (reactionTimer a)).
  - repeat split.
  - destruct (think_geometry a player obstacles peers)
      as (H1 & H2 & H3 & H4 & H5 & H6 & _ & H8).
    repeat split; assumption.
Qed.

Lemma applyMovement_geometry (a : AICar) (dt gameSpeed : Q) :
  oid (applyMovement a dt gameSpeed) = oid a /\
  laneCenters (applyMovement a dt gameSpeed) = laneCenters a /\
  LATERAL_SPEED (applyMovement a dt gameSpeed) = LATERAL_SPEED a /\
  state (applyMovement a dt gameSpeed) = state a /\
  playerBehind (applyMovement a dt gameSpeed) = playerBehind a.
Proof.
  unfold applyMovement. cbv zeta.
  cbn [set_y laneCenters targetLane x LATERAL_SPEED].
  destruct (laneCenter (laneCenters a) (targetLane a)); [|repeat split].
  destruct (x a); [|repeat split].
  destruct (Qle_bool _ _); repeat split.
Qed.

Lemma updateRegulate_geometry (a : AICar) dt gameSpeed player d :
  oid (updateRegulate a dt gameSpeed player d) = oid a /\
  laneCenters (updateRegulate a dt gameSpeed player d) = laneCenters a /\
  LATERAL_SPEED (updateRegulate a dt gameSpeed player d) = LATERAL_SPEED a /\
  reactionTimer (updateRegulate a dt gameSpeed player d) = reactionTimer a.
Proof.
  unfold updateRegulate, updateRubberBand. cbv zeta.
  destruct (Qltb 0 (laneChangeCooldown _));
    destruct (Qltb 220 _); try (repeat split; fail);
    destruct (Qltb _ (-80)); repeat split.
Qed.

(** A valid lane index reads a centre of a layout of at least 3 lanes. *)
Lemma laneCenter_defined (centers : list Q) (l : Z) :
  (3 <= length centers)%nat -> lane_in_range l ->
  exists c, laneCenter centers l = Some c /\ In c centers.
Proof.
  intros Hlen [Hlo Hhi]. unfold laneCenter.
  destruct (l <? 0)%Z eqn:E; [lia|].
  destruct (nth_error centers (Z.to_nat l)) as [c|] eqn:Hn.
  - exists c. split; [reflexivity|]. eapply nth_error_In, Hn.
  - apply nth_error_None in Hn. lia.
Qed.

(** ** The car stays on the road *)

Section Road.
Variable centers : list Q.
Variables lo hi : Q.
Hypothesis three_lanes : (3 <= length centers)%nat.
Hypothesis centers_bounded : Forall (fun c => lo <= c /\ c <= hi) centers.

Lemma center_bounded (l : Z) :
  lane_in_range l ->
  exists c, laneCenter centers l = Some c /\ lo <= c /\ c <= hi.
Proof.
  intro Hl.
  destruct (laneCenter_defined centers l three_lanes Hl) as (c & Hc & Hin).
  exists c. split; [exact Hc|].
  exact (proj1 (Forall_forall _ _) centers_bounded c Hin).
Qed.

Lemma newAICar_road id lane0 y0 d :
  lane_in_range lane0 ->
  road_inv centers lo hi (newAICar id lane0 y0 centers d).
Proof.
  intro Hl. split; [reflexivity|]. split; [discriminate|].
  split; [now apply newAICar_lanes_ok|].
  destruct (center_bounded lane0 Hl) as (c & Hc & Hb).
  exists c. split; [exact Hc | exact Hb].
Qed.

Lemma updateRubberBand_road a player gameSpeed d :
  respawn_draws_ok d -> road_inv centers lo hi a ->
  road_inv centers lo hi (updateRubberBand a player gameSpeed d).
Proof.
  intros Hd (Hc & Hs & Hok & Hx).
  pose proof (updateRubberBand_lanes_ok a player gameSpeed d Hd Hok) as Hok'.
  revert Hok'. unfold updateRubberBand.
  destruct (Qltb 220 _);
    [intro Hok'; exact (conj Hc (conj Hs (conj Hok' Hx)))|].
  destruct (Qltb _ (-80));
    [|intro Hok'; exact (conj Hc (conj Hs (conj Hok' Hx)))].
  intro Hok'. split; [exact Hc|]. split; [exact Hs|].
  split; [exact Hok'|].
  cbn [respawnAbove set_rubberBandMult set_playerBehind set_state set_x
       set_targetLane set_lane set_y x lane laneCenters].
  rewrite Hc. apply center_bounded, floor_draw_lane, Hd.
Qed.

Lemma updateRegulate_road a dt gameSpeed player d :
  respawn_draws_ok d -> road_inv centers lo hi a ->
  road_inv centers lo hi (updateRegulate a dt gameSpeed player d).
Proof.
  intros Hd Hinv. unfold updateRegulate. cbv zeta.
  apply updateRubberBand_road; [exact Hd|].
  destruct Hinv as (Hc & Hs & Hok & Hx).
  destruct (Qltb 0 _); exact (conj Hc (conj Hs (conj Hok Hx))).
Qed.

Lemma updateThink_road a dt player obstacles peers :
  road_inv centers lo hi a ->
  road_inv centers lo hi (updateThink a dt player obstacles peers).
Proof.
  intros (Hc & Hs & Hok & Hx).
  destruct (updateThink_geometry a dt player obstacles peers)
    as (_ & Gc & Gs & Gx & _).
  split; [congruence|]. split; [now rewrite Gs|].
  split; [now apply updateThink_lanes_ok|]. now rewrite Gx.
Qed.

Lemma applyMovement_road a dt gameSpeed :
  0 <= dt -> road_inv centers lo hi a ->
  road_inv centers lo hi (applyMovement a dt gameSpeed).
Proof.
  intros Hdt (Hc & Hs & Hok & cx & Hx & Hcl & Hch).
  destruct (applyMovement_geometry a dt gameSpeed) as (_ & Gc & Gs & _).
  split; [congruence|]. split; [now rewrite Gs|].
  split; [now apply applyMovement_lanes_ok|].
  destruct (center_bounded (targetLane a) (proj2 Hok))
    as (tx & Htx & Htl & Hth).
  pose proof (applyMovement_lateral a dt gameSpeed) as Hlat.
  rewrite Hc, Htx, Hx in Hlat.
  assert (Hstep : 0 <= LATERAL_SPEED a * dt)
    by (apply Qmult_le_0_compat; assumption).
  destruct (Qle_bool (Qabs (tx - cx)) (LATERAL_SPEED a * dt)) eqn:Hsnap;
    destruct Hlat as [Hnx _]; rewrite Hnx.
  - exists tx. repeat split; assumption.
  - assert (Hfar : LATERAL_SPEED a * dt < Qabs (tx - cx)).
    { apply Qnot_le_lt. intro Hle. apply Qle_bool_iff in Hle. congruence. }
    eexists. split; [reflexivity|].
    destruct (Qabs_cases (tx - cx)) as [[Hd Habs] | [Hd Habs]];
      destruct (Qsign_cases (tx - cx)) as [[Hsg ->] | [[Hsg ->] | [Hsg ->]]];
      split; lra.
Qed.

Lemma applyOp_road a op :
  op_draws_ok op -> op_time_ok op -> road_inv centers lo hi a ->
  road_inv centers lo hi (applyOp a op).
Proof.
  destruct op as [dt gameSpeed player obstacles peers d | amount
                 | player gameSpeed d]; unfold applyOp;
    intros Hd Ht Hinv.
  - unfold update. cbv zeta.
    apply applyMovement_road; [exact Ht|].
    apply updateThink_road, updateRegulate_road; assumption.
  - exact Hinv.
  - now apply updateRubberBand_road.
Qed.

Lemma run_road ops : forall a,
  Forall op_draws_ok ops -> Forall op_time_ok ops ->
  road_inv centers lo hi a -> road_inv centers lo hi (run a ops).
Proof.
  induction ops as [|op ops IH]; intros a Hd Ht Hinv; [exact Hinv|].
  inversion Hd; inversion Ht; subst.
  apply IH; try assumption. now apply applyOp_road.
Qed.
End Road.

(** X3: on a layout of at least three lanes whose centres lie in
    [[lo, hi]], a car constructed in a valid lane keeps a numeric [x]
    (never [NaN]) between [lo] and [hi] through every sequence of
    [update], [scroll] and regulator passes with non-negative time steps. *)
Theorem car_stays_on_road (centers : list Q) (lo hi : Q) (id : nat)
    (lane0 : Z) (y0 : Q) (d : CtorDraws) (ops : list Op) :
  (3 <= length centers)%nat ->
  Forall (fun c => lo <= c /\ c <= hi) centers ->
  lane_in_range lane0 ->
  Forall op_draws_ok ops ->
  Forall op_time_ok ops ->
  exists cx,
    x (run (newAICar id lane0 y0 centers d) ops) = Some cx /\
    lo <= cx /\ cx <= hi.
Proof.
  intros Hlen Hall Hl Hd Ht.
  destruct (run_road centers lo hi Hlen Hall ops
              (newAICar id lane0 y0 centers d) Hd Ht
              (newAICar_road centers lo hi Hlen Hall id lane0 y0 d Hl))
    as (_ & _ & _ & Hx).
  exact Hx.
Qed.

Lemma car_stays_on_road_witness :
  exists cx,
    x (run (newAICar 1 2 600 LANE_CENTERS (mkCtorDraws 0 (10 # 11) (1 # 2)))
           [OpUpdate (1 # 60) 300 (player_at 600 0) [] []
                     (mkRespawnDraws (1 # 2) (9 # 10));
            OpScroll 5]) = Some cx /\
    80 <= cx /\ cx <= 400.
Proof.
  apply (car_stays_on_road LANE_CENTERS 80 400 1 2 600
           (mkCtorDraws 0 (10 # 11) (1 # 2))
           [OpUpdate (1 # 60) 300 (player_at 600 0) [] []
                     (mkRespawnDraws (1 # 2) (9 # 10));
            OpScroll 5]).
  - simpl. lia.
  - repeat constructor; discriminate.
  - split; discriminate.
  - repeat constructor; discriminate.
  - repeat constructor; discriminate.
Defined.

(** ** Longitudinal motion *)

Lemma applyMovement_y (a : AICar) (dt gameSpeed : Q) :
  rubberBandMult (applyMovement a dt gameSpeed) = rubberBandMult a /\
  y (applyMovement a dt gameSpeed)
    = y a + gameSpeed *
            (match state a with
             | ACCELERATE => rubberBandMult a * 1.18
             | BLOCK => rubberBandMult a * 1.05
             | _ => rubberBandMult a
             end - 1.0) * dt.
Proof.
  unfold applyMovement. cbv zeta.
  cbn [set_y laneCenters targetLane x LATERAL_SPEED].
  destruct (laneCenter (laneCenters a) (targetLane a));
    [destruct (x a); [destruct (Qle_bool _ _)|]|];
    (split; [reflexivity|]); destruct (state a); reflexivity.
Qed.

Lemma updateRubberBand_mult (a : AICar) player gameSpeed d :
  (220 < y a - Player.y player ->
   rubberBandMult (updateRubberBand a player gameSpeed d) = 0.82) /\
  (y a - Player.y player <= 220 ->
   rubberBandMult (updateRubberBand a player gameSpeed d) = 1.0).
Proof.
  unfold updateRubberBand.
  destruct (Qltb 220 (y a - Player.y player)) eqn:Hfar.
  - apply Qltb_true in Hfar. split; [reflexivity | intro; exfalso; lra].
  - apply Qltb_false in Hfar. split; [intro; exfalso; lra|].
    intros _. destruct (Qltb _ (-80)); reflexivity.
Qed.

(** The regulator pass inside [update] when no respawn is due. *)
Lemma updateRegulate_calm (a : AICar) dt gameSpeed player d :
  -80 <= y a - Player.y player ->
  y (updateRegulate a dt gameSpeed player d) = y a /\
  x (updateRegulate a dt gameSpeed player d) = x a /\
  lane (updateRegulate a dt gameSpeed player d) = lane a /\
  targetLane (updateRegulate a dt gameSpeed player d) = targetLane a /\
  state (updateRegulate a dt gameSpeed player d) = state a /\
  stateTimer (updateRegulate a dt gameSpeed player d) = stateTimer a - dt /\
  blockTimer (updateRegulate a dt gameSpeed player d) = blockTimer a /\
  playerBehind (updateRegulate a dt gameSpeed player d) = playerBehind a.
Proof.
  intro Hcalm. apply Qltb_false in Hcalm.
  unfold updateRegulate, updateRubberBand. cbv zeta.
  destruct (Qltb 0 (laneChangeCooldown _));
    cbn [y set_laneChangeCooldown set_stateTimer set_reactionTime
         set_LANE_CHANGE_COOLDOWN set_lookAhead];
    rewrite Hcalm; destruct (Qltb 220 _); repeat split.
Qed.

(** X4: one [update] moves the car, relative to the player, by at most
    18% of the distance the road scrolls (game speed and time step not
    negative), measured from where the regulator left it; and the
    regulator itself leaves [y] alone unless the car is more than 80 units
    on the negative side of the player. *)
Theorem relative_speed_bound (a : AICar) (dt gameSpeed : Q)
    (player : Player.t) (obstacles : list Obstacle.t) (peers : list AICar)
    (d : RespawnDraws) :
  0 <= gameSpeed -> 0 <= dt ->
  Qabs (y (update a dt gameSpeed player obstacles peers d)
        - y (updateRegulate a dt gameSpeed player d))
    <= 0.18 * (gameSpeed * dt) /\
  (-80 <= y a - Player.y player ->
   y (updateRegulate a dt gameSpeed player d) = y a).
Proof.
  intros Hg Ht.
  split; [|intro Hcalm; apply updateRegulate_calm, Hcalm].
  unfold update. cbv zeta.
  set (a1 := updateRegulate a dt gameSpeed player d).
  destruct (updateThink_geometry a1 dt player obstacles peers)
    as (_ & _ & _ & _ & Hy & Hm & _).
  destruct (applyMovement_y (updateThink a1 dt player obstacles peers)
              dt gameSpeed) as (_ & Hy').
  rewrite Hy', Hy, Hm.
  assert (Hmult : rubberBandMult a1 = 0.82 \/ rubberBandMult a1 = 1.0).
  { unfold a1, updateRegulate. cbv zeta.
    match goal with
    | |- context [updateRubberBand ?b player gameSpeed d] =>
        destruct (updateRubberBand_mult b player gameSpeed d) as [Hfar Hnear];
        destruct (Qlt_le_dec 220 (y b - Player.y player)) as [H | H]
    end; [left; now apply Hfar | right; now apply Hnear]. }
  assert (Hp : 0 <= gameSpeed * dt) by (apply Qmult_le_0_compat; assumption).
  apply Qabs_Qle_condition.
  destruct Hmult as [-> | ->];
    destruct (state (updateThink a1 dt player obstacles peers)); split; lra.
Qed.

Lemma relative_speed_bound_witness :
  Qabs (y (update (car_with 1 1 540 (1 # 2)) (1 # 60) 300 (player_at 600 1)
             [] [] (mkRespawnDraws 0 0))
        - y (updateRegulate (car_with 1 1 540 (1 # 2)) (1 # 60) 300
               (player_at 600 1) (mkRespawnDraws 0 0)))
    <= 0.18 * (300 * (1 # 60)).
Proof.
  apply (relative_speed_bound (car_with 1 1 540 (1 # 2)) (1 # 60) 300
           (player_at 600 1) [] [] (mkRespawnDraws 0 0));
    discriminate.
Defined.

(** ** The think cycle, rule by rule *)

(** When no rule fires the think cycle is its default tail. *)
Lemma think_default_path (a : AICar) player obstacles peers :
  scanObstacle a obstacles = false \/ state a = DODGE ->
  -40 <= y a - Player.y player ->
  140 <= Qabs (y a - Player.y player) \/ aggression a <= 0.65 ->
  think a player obstacles peers
    = thinkDefault (set_reactionTimer a (reactionTime a)).
Proof.
  intros Hhaz Hdelta Hquiet.
  assert (Hgate : scanObstacle a obstacles
                  && negb (State_eqb (state a) DODGE) = false).
  { destruct Hhaz as [-> | ->]; [reflexivity | apply andb_false_r]. }
  apply Qltb_false in Hdelta.
  unfold think. cbv zeta.
  change (scanObstacle (set_reactionTimer a (reactionTime a)) obstacles)
    with (scanObstacle a obstacles).
  cbn [state y aggression blockTimer set_reactionTimer].
  rewrite Hgate, Hdelta.
  destruct Hquiet as [Hfar | Hmild].
  - apply Qltb_false in Hfar. now rewrite Hfar.
  - assert (H1 : Qltb 0.82 (aggression a) = false)
      by (apply Qltb_false; lra).
    assert (H2 : Qltb 0.65 (aggression a) = false)
      by (apply Qltb_false; lra).
    rewrite H1, H2. simpl andb. cbv iota.
    now destruct (Qltb (Qabs _) 140).
Qed.

Lemma thinkDefault_state (a : AICar) :
  (stateTimer a <= 0 -> state (thinkDefault a) = CRUISE) /\
  (0 < stateTimer a -> state (thinkDefault a) = state a) /\
  targetLane (thinkDefault a) = targetLane a.
Proof.
  unfold thinkDefault. cbv zeta.
  destruct (Qltb 0 (blockTimer a));
    cbn [stateTimer set_blockTimer];
    destruct (Qle_bool (stateTimer a) 0) eqn:E.
  all: repeat split; try reflexivity.
  all: try (intro H; apply Qle_bool_iff in E; exfalso; lra).
  all: intro H; apply Qle_bool_iff in H; congruence.
Qed.

(** X5: state expiry.  An [update] whose think cycle runs (reaction timer
    not positive) and in which no rule fires (the car is in DODGE or there
    is no obstacle, it is not more than 40 behind, and it is either 140 or
    more away from the player or has aggression at most 0.65) turns a
    state whose timer runs out within this time step back into CRUISE and
    keeps the target lane. *)
Theorem state_expires_to_cruise (a : AICar) (dt gameSpeed : Q)
    (player : Player.t) (obstacles : list Obstacle.t) (peers : list AICar)
    (d : RespawnDraws) :
  reactionTimer a <= 0 ->
  stateTimer a <= dt ->
  state a = DODGE \/ obstacles = [] ->
  -40 <= y a - Player.y player ->
  140 <= Qabs (y a - Player.y player) \/ aggression a <= 0.65 ->
  state (update a dt gameSpeed player obstacles peers d) = CRUISE /\
  targetLane (update a dt gameSpeed player obstacles peers d) = targetLane a.
Proof.
  intros Hrt Hst Hhaz Hdelta Hquiet.
  assert (Hcalm : -80 <= y a - Player.y player) by lra.
  destruct (updateRegulate_calm a dt gameSpeed player d Hcalm)
    as (Hy & _ & _ & Htl & Hs & Hti & _).
  destruct (updateRegulate_geometry a dt gameSpeed player d)
    as (_ & _ & _ & Hrti).
  destruct (updateRegulate_scaling a dt gameSpeed player d) as (Hagg & _).
  unfold update. cbv zeta.
  set (a1 := updateRegulate a dt gameSpeed player d) in *.
  destruct (applyMovement_geometry
              (updateThink a1 dt player obstacles peers) dt gameSpeed)
    as (_ & _ & _ & Hs' & _).
  destruct (applyMovement_frame
              (updateThink a1 dt player obstacles peers) dt gameSpeed)
    as (_ & _ & Htl' & _).
  rewrite Hs', Htl'.
  unfold updateThink.
  assert (Hgo : Qltb 0 (reactionTimer a1) = false)
    by (apply Qltb_false; now rewrite Hrti).
  rewrite Hgo.
  rewrite think_default_path.
  - destruct (thinkDefault_state (set_reactionTimer a1 (reactionTime a1)))
      as (Hexp & _ & Hkeep).
    rewrite Hkeep. cbn [targetLane set_reactionTimer].
    split; [|exact Htl].
    apply Hexp. cbn [stateTimer set_reactionTimer]. rewrite Hti. lra.
  - destruct Hhaz as [Hd | ->]; [right; now rewrite Hs | left; reflexivity].
  - now rewrite Hy.
  - rewrite Hy, Hagg. exact Hquiet.
Qed.

Lemma state_expires_to_cruise_witness :
  state (update (set_stateTimer (set_state (car_with 1 1 800 (1 # 2)) DODGE)
                   1.2)
           1.3 300 (player_at 600 1) [Obstacle.mk 240 780 32] []
           (mkRespawnDraws 0 0)) = CRUISE.
Proof.
  apply (state_expires_to_cruise
           (set_stateTimer (set_state (car_with 1 1 800 (1 # 2)) DODGE) 1.2)
           1.3 300 (player_at 600 1) [Obstacle.mk 240 780 32] []
           (mkRespawnDraws 0 0)).
  - discriminate.
  - discriminate.
  - left; reflexivity.
  - discriminate.
  - left. discriminate.
Defined.

(** X6: the hazard rule is skipped while the car is in DODGE.  A car
    already in DODGE that is more than 40 behind the player goes to
    ACCELERATE (timer 0.6 s) whatever the obstacles are, and keeps its
    target lane: no new dodge is planned. *)
Theorem dodge_state_masks_hazard (a : AICar) (player : Player.t)
    (obstacles : list Obstacle.t) (peers : list AICar) :
  state a = DODGE ->
  y a - Player.y player < -40 ->
  state (think a player obstacles peers) = ACCELERATE /\
  stateTimer (think a player obstacles peers) == 0.6 /\
  targetLane (think a player obstacles peers) = targetLane a.
Proof.
  intros Hs Hdelta. apply Qltb_true in Hdelta.
  unfold think. cbv zeta.
  cbn [state y set_reactionTimer]. rewrite Hs, Hdelta.
  rewrite andb_false_r. repeat split; reflexivity.
Qed.

Lemma dodge_state_masks_hazard_witness :
  scanObstacle (set_state (car_with 1 1 540 (1 # 2)) DODGE)
               [Obstacle.mk 240 500 32] = true /\
  state (think (set_state (car_with 1 1 540 (1 # 2)) DODGE)
           (player_at 600 1) [Obstacle.mk 240 500 32] []) = ACCELERATE.
Proof.
  split; [reflexivity|].
  apply (dodge_state_masks_hazard (set_state (car_with 1 1 540 (1 # 2)) DODGE)
           (player_at 600 1) [Obstacle.mk 240 500 32] []);
    reflexivity.
Defined.

(** ** The reaction gate *)

(** X7: while the reaction timer is positive, [update] does not think:
    the timer drops by [dt], the block cooldown keeps its value, and,
    unless the regulator respawns the car, the state and the target lane
    are those before the call.  When the timer is not positive the think
    cycle runs and restarts it at the rescaled reaction time. *)
Theorem reaction_gate (a : AICar) (dt gameSpeed : Q) (player : Player.t)
    (obstacles : list Obstacle.t) (peers : list AICar) (d : RespawnDraws) :
  (0 < reactionTimer a ->
   reactionTimer (update a dt gameSpeed player obstacles peers d)
     = reactionTimer a - dt /\
   blockTimer (update a dt gameSpeed player obstacles peers d)
     = blockTimer (updateRegulate a dt gameSpeed player d) /\
   (-80 <= y a - Player.y player ->
    state (update a dt gameSpeed player obstacles peers d) = state a /\
    targetLane (update a dt gameSpeed player obstacles peers d)
      = targetLane a)) /\
  (reactionTimer a <= 0 ->
   reactionTimer (update a dt gameSpeed player obstacles peers d)
     = reactionTime (update a dt gameSpeed player obstacles peers d)).
Proof.
  destruct (updateRegulate_geometry a dt gameSpeed player d)
    as (_ & _ & _ & Hrti).
  destruct (update_scaling a dt gameSpeed player obstacles peers d)
    as (_ & Hrt & _).
  destruct (updateRegulate_scaling a dt gameSpeed player d) as (_ & Hrt1 & _).
  rewrite Hrt. unfold update. cbv zeta.
  set (a1 := updateRegulate a dt gameSpeed player d) in *.
  assert (Hmove : forall b,
    reactionTimer (applyMovement b dt gameSpeed) = reactionTimer b /\
    blockTimer (applyMovement b dt gameSpeed) = blockTimer b).
  { intro b. unfold applyMovement. cbv zeta.
    cbn [set_y laneCenters targetLane x LATERAL_SPEED].
    destruct (laneCenter (laneCenters b) (targetLane b));
      [destruct (x b); [destruct (Qle_bool _ _)|]|]; split; reflexivity. }
  destruct (Hmove (updateThink a1 dt player obstacles peers)) as [-> ->].
  destruct (applyMovement_geometry
              (updateThink a1 dt player obstacles peers) dt gameSpeed)
    as (_ & _ & _ & -> & _).
  destruct (applyMovement_frame
              (updateThink a1 dt player obstacles peers) dt gameSpeed)
    as (_ & _ & -> & _).
  unfold updateThink. split; intro Hpos.
  - assert (Hwait : Qltb 0 (reactionTimer a1) = true)
      by (apply Qltb_true; now rewrite Hrti).
    rewrite Hwait. cbn [reactionTimer blockTimer state targetLane
                        set_reactionTimer].
    rewrite Hrti. repeat split.
    + apply (updateRegulate_calm a dt gameSpeed player d H).
    + apply (updateRegulate_calm a dt gameSpeed player d H).
  - assert (Hgo : Qltb 0 (reactionTimer a1) = false)
      by (apply Qltb_false; now rewrite Hrti).
    rewrite Hgo.
    destruct (think_geometry a1 player obstacles peers)
      as (_ & _ & _ & _ & _ & _ & -> & _).
    exact Hrt1.
Qed.

Lemma reaction_gate_witness :
  state (update (set_reactionTimer (car_with 1 1 600 (10 # 11)) 0.05)
           (1 # 60) 300 (player_at 600 0) [] [] (mkRespawnDraws 0 0))
    = CRUISE.
Proof.
  apply (proj1 (reaction_gate
                  (set_reactionTimer (car_with 1 1 600 (10 # 11)) 0.05)
                  (1 # 60) 300 (player_at 600 0) [] [] (mkRespawnDraws 0 0)));
    [reflexivity | discriminate].
Defined.

(** ** Lane changes and states *)

Lemma planners_idle (a : AICar) player obstacles peers :
  0 < laneChangeCooldown a ->
  dodge a obstacles peers = a /\ planOvertake a player peers = a /\
  planBlock a player peers = a.
Proof.
  intro H. apply Qltb_true in H.
  unfold dodge, planOvertake, planBlock. rewrite H. repeat split.
Qed.

(** X8: a think cycle changes [targetLane] only while entering DODGE,
    BLOCK or OVERTAKE, only when the lane-change cooldown has run out, and
    only to a lane in {0,1,2}; the cooldown is then restarted at
    [LANE_CHANGE_COOLDOWN]. *)
Theorem lane_change_needs_maneuver (a : AICar) (player : Player.t)
    (obstacles : list Obstacle.t) (peers : list AICar) :
  targetLane (think a player obstacles peers) <> targetLane a ->
  (state (think a player obstacles peers) = DODGE \/
   state (think a player obstacles peers) = BLOCK \/
   state (think a player obstacles peers) = OVERTAKE) /\
  laneChangeCooldown a <= 0 /\
  lane_in_range (targetLane (think a player obstacles peers)) /\
  laneChangeCooldown (think a player obstacles peers)
    = LANE_CHANGE_COOLDOWN a.
Proof.
  intro Hch.
  assert (Hcd : laneChangeCooldown a <= 0).
  { destruct (Qlt_le_dec 0 (laneChangeCooldown a)) as [Hpos | Hle];
      [|exact Hle].
    exfalso. apply Hch. apply Qltb_true in Hpos.
    unfold think, thinkDefault, dodge, planBlock, planOvertake. cbv zeta.
    cbn [laneChangeCooldown set_reactionTimer set_state set_stateTimer
         set_blockTimer].
    rewrite Hpos.
    repeat match goal with
    | |- context [if ?c then _ else _] => destruct c
    end; reflexivity. }
  destruct (think_shape a player obstacles peers)
    as (b & Hvia & _ & Htb & Hcb & Hlb & _).
  destruct (via_changeLane_target _ _ Hvia) as [[Hsame _] | (Hin & _ & Hlcc)];
    [exfalso; apply Hch; congruence|].
  split; [|split; [exact Hcd | split; [exact Hin | congruence]]].
  revert Hch. unfold think, thinkDefault. cbv zeta.
  repeat match goal with
  | |- context [if ?c then _ else _] => destruct c
  end;
  try (intro Hch; exfalso; apply Hch; reflexivity); intros _.
  - match goal with
    | |- context [dodge ?c obstacles peers] =>
        destruct (via_changeLane_frame c _ (dodge_shape c obstacles peers))
          as (-> & _)
    end. left; reflexivity.
  - match goal with
    | |- context [planBlock ?c player peers] =>
        destruct (via_changeLane_frame c _ (planBlock_shape c player peers))
          as (-> & _)
    end. right; left; reflexivity.
  - match goal with
    | |- context [planOvertake ?c player peers] =>
        destruct (via_changeLane_frame c _
                    (planOvertake_shape c player peers)) as (-> & _)
    end. right; right; reflexivity.
Qed.

Lemma lane_change_needs_maneuver_witness :
  laneChangeCooldown (car_with 1 1 600 (10 # 11)) <= 0 /\
  lane_in_range
    (targetLane (think (car_with 1 1 600 (10 # 11)) (player_at 600 0) [] [])).
Proof.
  destruct (lane_change_needs_maneuver (car_with 1 1 600 (10 # 11))
              (player_at 600 0) [] []) as (_ & Hcd & Hin & _).
  - intro H. vm_compute in H. discriminate.
  - split; [exact Hcd | exact Hin].
Defined.

(** ** The block cooldown *)



(** ** Difficulty scaling of the look-ahead *)





(** ** Which lane the planners pick *)

Lemma changeLane_target (a : AICar) (n : Z) :
  lane_in_range n -> targetLane (changeLane a n) = n.
Proof.
  intros [Hlo Hhi].
  destruct (changeLane_cases a n) as [[Hout ->] | (_ & _ & ->)];
    [lia | reflexivity].
Qed.

Lemma lane_cases (l : Z) : lane_in_range l -> l = 0%Z \/ l = 1%Z \/ l = 2%Z.
Proof. unfold lane_in_range. lia. Qed.

(** X11: with the cooldown run out and at least one lane passing the
    dodge filter (no obstacle in its scan, not occupied), [_dodge] sets
    [targetLane] to a lane that passes the filter and is nearest to the
    car's current [lane]; of two equally near lanes it takes the lower
    index. *)
Theorem dodge_picks_nearest_safe (a : AICar) (obstacles : list Obstacle.t)
    (peers : list AICar) (t : Z) :
  laneChangeCooldown a <= 0 ->
  lane_in_range t ->
  safeLane a obstacles peers t = true ->
  lane_in_range (targetLane (dodge a obstacles peers)) /\
  safeLane a obstacles peers (targetLane (dodge a obstacles peers)) = true /\
  (Z.abs (targetLane (dodge a obstacles peers) - lane a)
     <= Z.abs (t - lane a))%Z /\
  (Z.abs (targetLane (dodge a obstacles peers) - lane a)
     = Z.abs (t - lane a) ->
   (targetLane (dodge a obstacles peers) <= t)%Z).
Proof.
  intros Hcd Ht Hsafe. apply Qltb_false in Hcd.
  unfold dodge. rewrite Hcd. cbv zeta.
  change (filter _ [0%Z; 1%Z; 2%Z])
    with (filter (safeLane a obstacles peers) [0%Z; 1%Z; 2%Z]).
  generalize dependent (safeLane a obstacles peers). intros f Hsafe.
  generalize (lane a). intro z.
  cbn [filter].
  destruct (lane_cases t Ht) as [-> | [-> | ->]];
    destruct (f 0%Z) eqn:F0; destruct (f 1%Z) eqn:F1; destruct (f 2%Z) eqn:F2;
    try discriminate;
    cbn [sortBy fold_right insertBy];
    repeat (match goal with
            | |- context [(?u <=? 0)%Z] => destruct (Z.leb_spec u 0)
            end; cbn [insertBy]);
    rewrite changeLane_target by (split; lia);
    (split; [split; lia|]); (split; [assumption|]); split; lia.
Qed.

Lemma dodge_picks_nearest_safe_witness :
  targetLane (dodge (car_with 1 1 540 (1 # 2)) [Obstacle.mk 240 500 32] [])
    = 0%Z.
Proof.
  destruct (dodge_picks_nearest_safe (car_with 1 1 540 (1 # 2))
              [Obstacle.mk 240 500 32] [] 0) as (Hin & _ & Hnear & Htie).
  - discriminate.
  - split; discriminate.
  - reflexivity.
  - reflexivity.
Defined.

(** X12: with the cooldown run out and at least one lane passing the
    overtake filter (not the player's lane, not occupied), [_planOvertake]
    sets [targetLane] to a lane that passes the filter, hence never the
    player's lane, and is nearest to the car's current [lane]; of two
    equally near lanes it takes the higher index, unlike [_dodge]. *)
Theorem overtake_picks_nearest_free (a : AICar) (player : Player.t)
    (peers : list AICar) (t : Z) :
  laneChangeCooldown a <= 0 ->
  lane_in_range t ->
  freeLane a player peers t = true ->
  lane_in_range (targetLane (planOvertake a player peers)) /\
  freeLane a player peers (targetLane (planOvertake a player peers)) = true /\
  targetLane (planOvertake a player peers) <> Player.lane player /\
  (Z.abs (targetLane (planOvertake a player peers) - lane a)
     <= Z.abs (t - lane a))%Z /\
  (Z.abs (targetLane (planOvertake a player peers) - lane a)
     = Z.abs (t - lane a) ->
   (t <= targetLane (planOvertake a player peers))%Z).
Proof.
  intros Hcd Ht Hfree. apply Qltb_false in Hcd.
  assert (Hne : forall l, freeLane a player peers l = true ->
                          l <> Player.lane player).
  { intros l Hl. unfold freeLane in Hl. apply andb_prop in Hl as [Hl _].
    apply negb_true_iff in Hl. now apply Z.eqb_neq. }
  assert (Hgoal :
    lane_in_range (targetLane (planOvertake a player peers)) /\
    freeLane a player peers (targetLane (planOvertake a player peers)) = true /\
    (Z.abs (targetLane (planOvertake a player peers) - lane a)
       <= Z.abs (t - lane a))%Z /\
    (Z.abs (targetLane (planOvertake a player peers) - lane a)
       = Z.abs (t - lane a) ->
     (t <= targetLane (planOvertake a player peers))%Z)).
  { unfold planOvertake. rewrite Hcd. cbv zeta.
    change (filter _ [0%Z; 1%Z; 2%Z])
      with (filter (freeLane a player peers) [0%Z; 1%Z; 2%Z]).
    clear Hne. generalize dependent (freeLane a player peers). intros f Hfree.
    generalize (lane a). intro z.
    cbn [filter].
    destruct (lane_cases t Ht) as [-> | [-> | ->]];
      destruct (f 0%Z) eqn:F0; destruct (f 1%Z) eqn:F1;
      destruct (f 2%Z) eqn:F2;
      try discriminate;
      cbn [fold_left];
      repeat (match goal with
              | |- context [(?u <? ?v)%Z] =>
                  lazymatch u with
                  | context [if _ then _ else _] => fail
                  | _ => destruct (Z.ltb_spec u v)
                  end
              end; cbv beta iota);
      rewrite changeLane_target by (split; lia);
      (split; [split; lia|]); (split; [assumption|]); split; lia. }
  destruct Hgoal as (H1 & H2 & H3 & H4).
  repeat split; try assumption; try apply H1. now apply Hne.
Qed.

Lemma overtake_picks_nearest_free_witness :
  targetLane (planOvertake (car_with 1 1 600 (6 # 11)) (player_at 600 1) [])
    <> 1%Z.
Proof.
  destruct (overtake_picks_nearest_free (car_with 1 1 600 (6 # 11))
              (player_at 600 1) [] 0) as (_ & _ & Hne & _).
  - discriminate.
  - split; discriminate.
  - reflexivity.
  - exact Hne.
Defined.

(** X13: when no lane qualifies the planners do nothing.  [_dodge]
    returns the car untouched when every lane fails its filter,
    [_planOvertake] when every lane fails its own, and [_planBlock] when
    the player's lane is occupied or is not a lane index at all. *)
Theorem no_viable_lane_is_noop (a : AICar) (player : Player.t)
    (obstacles : list Obstacle.t) (peers : list AICar) :
  ((forall l, lane_in_range l -> safeLane a obstacles peers l = false) ->
   dodge a obstacles peers = a) /\
  ((forall l, lane_in_range l -> freeLane a player peers l = false) ->
   planOvertake a player peers = a) /\
  (laneOccupied a (Player.lane player) peers = true \/
   ~ lane_in_range (Player.lane player) ->
   planBlock a player peers = a).
Proof.
  assert (R0 : lane_in_range 0) by (split; lia).
  assert (R1 : lane_in_range 1) by (split; lia).
  assert (R2 : lane_in_range 2) by (split; lia).
  split; [|split].
  - intro Hnone. unfold dodge.
    destruct (Qltb 0 (laneChangeCooldown a)); [reflexivity|]. cbv zeta.
    change (filter _ [0%Z; 1%Z; 2%Z])
      with (filter (safeLane a obstacles peers) [0%Z; 1%Z; 2%Z]).
    cbn [filter]. rewrite (Hnone _ R0), (Hnone _ R1), (Hnone _ R2).
    reflexivity.
  - intro Hnone. unfold planOvertake.
    destruct (Qltb 0 (laneChangeCooldown a)); [reflexivity|]. cbv zeta.
    change (filter _ [0%Z; 1%Z; 2%Z])
      with (filter (freeLane a player peers) [0%Z; 1%Z; 2%Z]).
    cbn [filter]. rewrite (Hnone _ R0), (Hnone _ R1), (Hnone _ R2).
    reflexivity.
  - intro Hbad. unfold planBlock.
    destruct (Qltb 0 (laneChangeCooldown a)); [reflexivity|].
    destruct Hbad as [-> | Hout]; [reflexivity|].
    destruct (negb _); [|reflexivity].
    destruct (changeLane_cases a (Player.lane player))
      as [[_ ->] | (Hin & _)]; [reflexivity | now elim Hout].
Qed.

Lemma no_viable_lane_is_noop_witness :
  planBlock (car_with 1 1 600 (10 # 11)) (Player.mk 240 600 7) []
    = car_with 1 1 600 (10 # 11).
Proof.
  apply (proj2 (proj2 (no_viable_lane_is_noop (car_with 1 1 600 (10 # 11))
                         (Player.mk 240 600 7) [] []))).
  right. intros [_ H]. vm_compute in H. now apply H.
Defined.

(** X14: with the cooldown run out, [_planBlock] called with the player
    in a lane of {0,1,2} that no peer occupies leaves [targetLane] equal
    to the player's lane, restarting the cooldown when that is a change. *)
Theorem block_targets_player_lane (a : AICar) (player : Player.t)
    (peers : list AICar) :
  laneChangeCooldown a <= 0 ->
  lane_in_range (Player.lane player) ->
  laneOccupied a (Player.lane player) peers = false ->
  targetLane (planBlock a player peers) = Player.lane player /\
  (Player.lane player <> targetLane a ->
   laneChangeCooldown (planBlock a player peers) = LANE_CHANGE_COOLDOWN a).
Proof.
  intros Hcd Hin Hfree. apply Qltb_false in Hcd.
  unfold planBlock. rewrite Hcd, Hfree. cbn [negb].
  split; [now apply changeLane_target|].
  intro Hne.
  destruct (changeLane_cases a (Player.lane player))
    as [[Hout _] | (_ & _ & ->)]; [|reflexivity].
  destruct Hin. lia.
Qed.

Lemma block_targets_player_lane_witness :
  targetLane (planBlock (car_with 1 1 600 (10 # 11)) (player_at 600 0) [])
    = 0%Z.
Proof.
  apply (block_targets_player_lane (car_with 1 1 600 (10 # 11))
           (player_at 600 0) []).
  - discriminate.
  - split; discriminate.
  - reflexivity.
Defined.

(** ** The player's lane as the game reports it *)

Lemma nearestStep_at (px : Q) (best i : Z) (lx b : Q) :
  laneCenter LANE_CENTERS best = Some b ->
  nearestStep px (best, i) lx
    = (if Qltb (Qabs (lx - px)) (Qabs (b - px)) then i else best, (i + 1)%Z).
Proof. intro H. unfold nearestStep. now rewrite H. Qed.

Lemma playerLane_cases (px : Q) :
  (px <= 160 /\ playerLane px = 0%Z) \/
  (160 < px /\ px <= 320 /\ playerLane px = 1%Z) \/
  (320 < px /\ playerLane px = 2%Z).
Proof.
  unfold playerLane. cbn [fold_left LANE_CENTERS].
  rewrite (nearestStep_at px 0 0 80 80 eq_refl).
  assert (H0 : Qltb (Qabs (80 - px)) (Qabs (80 - px)) = false)
    by (apply Qltb_false, Qle_refl).
  rewrite H0.
  rewrite (nearestStep_at px 0 (0 + 1) 240 80 eq_refl).
  destruct (Qabs_cases (80 - px)) as [[A1 A1'] | [A1 A1']];
    destruct (Qabs_cases (240 - px)) as [[A2 A2'] | [A2 A2']];
    destruct (Qabs_cases (400 - px)) as [[A3 A3'] | [A3 A3']];
    try (exfalso; lra);
    (destruct (Qltb (Qabs (240 - px)) (Qabs (80 - px))) eqn:E1;
     [ apply Qltb_true in E1;
       rewrite (nearestStep_at px (0 + 1) (0 + 1 + 1) 400 240 eq_refl)
     | apply Qltb_false in E1;
       rewrite (nearestStep_at px 0 (0 + 1 + 1) 400 80 eq_refl) ]);
    match goal with
    | |- context [Qltb ?u ?v] =>
        destruct (Qltb u v) eqn:E2;
        [apply Qltb_true in E2 | apply Qltb_false in E2]
    end;
    cbn [fst]; try (exfalso; lra);
    first [ left; split; [lra | reflexivity]
          | right; left; split; [lra | split; [lra | reflexivity]]
          | right; right; split; [lra | reflexivity] ].
Qed.

Lemma LANE_CENTERS_cases (l : Z) (c : Q) :
  laneCenter LANE_CENTERS l = Some c ->
  (l = 0%Z /\ c = 80) \/ (l = 1%Z /\ c = 240) \/ (l = 2%Z /\ c = 400).
Proof.
  unfold laneCenter. destruct (l <? 0)%Z eqn:E; [discriminate|].
  apply Z.ltb_ge in E.
  destruct (Z.to_nat l) as [|[|[|n]]] eqn:En; simpl; intro H;
    try (injection H as <-).
  - left. split; [lia | reflexivity].
  - right; left. split; [lia | reflexivity].
  - right; right. split; [lia | reflexivity].
  - destruct n; discriminate.
Qed.

(** X15: the lane the game reports for a player at [px] is always an
    index in {0,1,2} of a lane centre nearest to [px]: lane 0 up to
    [px = 160], lane 1 above 160 and up to 320, lane 2 above 320; a
    player exactly half-way between two centres is reported in the lower
    lane. *)
Theorem playerLane_nearest (px : Q) :
  lane_in_range (playerLane px) /\
  (playerLane px = 0%Z <-> px <= 160) /\
  (playerLane px = 1%Z <-> 160 < px /\ px <= 320) /\
  (playerLane px = 2%Z <-> 320 < px) /\
  (exists b, laneCenter LANE_CENTERS (playerLane px) = Some b /\
     forall l c, laneCenter LANE_CENTERS l = Some c ->
                 Qabs (b - px) <= Qabs (c - px)).
Proof.
  destruct (playerLane_cases px) as [[H ->] | [(H1 & H2 & ->) | [H ->]]].
  - split; [split; lia|]. split; [tauto|].
    split; [split; [discriminate | intros [? ?]; exfalso; lra]|].
    split; [split; [discriminate | intro; exfalso; lra]|].
    exists 80. split; [reflexivity|]. intros l c Hc.
    destruct (LANE_CENTERS_cases l c Hc) as [[_ ->] | [[_ ->] | [_ ->]]];
      destruct (Qabs_cases (80 - px)) as [[A A'] | [A A']];
      match goal with
      | |- _ <= Qabs ?t => destruct (Qabs_cases t) as [[B B'] | [B B']]
      end; lra.
  - split; [split; lia|].
    split; [split; [discriminate | intro; exfalso; lra]|].
    split; [tauto|].
    split; [split; [discriminate | intro; exfalso; lra]|].
    exists 240. split; [reflexivity|]. intros l c Hc.
    destruct (LANE_CENTERS_cases l c Hc) as [[_ ->] | [[_ ->] | [_ ->]]];
      destruct (Qabs_cases (240 - px)) as [[A A'] | [A A']];
      match goal with
      | |- _ <= Qabs ?t => destruct (Qabs_cases t) as [[B B'] | [B B']]
      end; lra.
  - split; [split; lia|].
    split; [split; [discriminate | intro; exfalso; lra]|].
    split; [split; [discriminate | intros [? ?]; exfalso; lra]|].
    split; [tauto|].
    exists 400. split; [reflexivity|]. intros l c Hc.
    destruct (LANE_CENTERS_cases l c Hc) as [[_ ->] | [[_ ->] | [_ ->]]];
      destruct (Qabs_cases (400 - px)) as [[A A'] | [A A']];
      match goal with
      | |- _ <= Qabs ?t => destruct (Qabs_cases t) as [[B B'] | [B B']]
      end; lra.
Qed.

(** ** Spawning *)

(** X16: [_spawnAI] builds [AI_COUNT] = 4 distinct cars, each in a valid
    lane with [targetLane = lane], standing on that lane's centre, in
    CRUISE, 210 units apart from -120 upwards; each of them is more than
    80 units on the negative side of the player's fixed height, so the
    first regulator pass it meets is a respawn. *)
Theorem spawned_cars_well_formed (draws : nat -> SpawnDraws) :
  (forall i, spawn_draws_ok (draws i)) ->
  length (spawnAI draws) = 4%nat /\
  NoDup (map oid (spawnAI draws)) /\
  forall i a, nth_error (spawnAI draws) i = Some a ->
    lanes_ok a /\ targetLane a = lane a /\
    x a = laneCenter LANE_CENTERS (lane a) /\ x a <> None /\
    state a = CRUISE /\
    y a == -120 - inject_Z (Z.of_nat i) * 210 /\
    y a - PLAYER_Y < -80.
Proof.
  intro Hok. split; [reflexivity|]. split.
  { cbn. repeat constructor; cbn; intuition discriminate. }
  intros i a Hnth.
  assert (Hi : (i < 4)%nat).
  { change 4%nat with (length (spawnAI draws)).
    apply (proj1 (nth_error_Some (spawnAI draws) i)).
    rewrite Hnth. discriminate. }
  assert (Ha : a = spawnOne i (draws i)).
  { destruct i as [|[|[|[|i]]]]; try lia; cbn in Hnth; congruence. }
  subst a.
  assert (Hl : lane_in_range (Qfloor (spawn_lane (draws i) * 3)))
    by (apply floor_draw_lane, Hok).
  destruct (laneCenter_defined LANE_CENTERS _ (le_n 3) Hl) as (c & Hc & _).
  unfold spawnOne.
  split; [now apply newAICar_lanes_ok|]. split; [reflexivity|].
  split; [reflexivity|].
  split; [cbn [x newAICar]; rewrite Hc; discriminate|].
  split; [reflexivity|]. split; [reflexivity|].
  cbn [y newAICar]. unfold PLAYER_Y, CANVAS_H.
  assert (Hnn : 0 <= inject_Z (Z.of_nat i)).
  { change 0 with (inject_Z 0). rewrite <- Zle_Qle. lia. }
  lra.
Qed.

Lemma spawned_cars_well_formed_witness :
  length (spawnAI (fun _ => mkSpawnDraws (1 # 2) (mkCtorDraws 0 (1 # 2) (1 # 2))))
    = 4%nat.
Proof.
  apply (spawned_cars_well_formed
           (fun _ => mkSpawnDraws (1 # 2) (mkCtorDraws 0 (1 # 2) (1 # 2)))).
  intro i. repeat split; discriminate.
Defined.

(** ** Overtake scoring *)

Lemma checkOvertake_spec (py : Q) (a : AICar) (score : Q) :
  snd (checkOvertake py a score)
    = (if overtakeDue py a then score + POINTS_PER_OVERTAKE else score) /\
  overtakeDue py (fst (checkOvertake py a score)) = false /\
  y (fst (checkOvertake py a score)) = y a /\
  oid (fst (checkOvertake py a score)) = oid a.
Proof.
  unfold checkOvertake, overtakeDue. cbv zeta.
  destruct (playerBehind a) eqn:Hpb; cbn [negb andb].
  - rewrite Hpb. cbn [andb].
    destruct (Qltb (y a) (py - 40)) eqn:Hup; cbn [fst snd];
      repeat split; cbn [playerBehind y set_playerBehind andb];
      try reflexivity.
    now rewrite Hpb, Hup.
  - destruct (Qltb (py + 40) (y a)) eqn:Hdown;
      cbn [playerBehind y set_playerBehind andb].
    + assert (Hup : Qltb (y a) (py - 40) = false).
      { apply Qltb_true in Hdown. apply Qltb_false. lra. }
      rewrite Hup. cbn [fst snd playerBehind y set_playerBehind andb].
      rewrite Hup. repeat split.
    + rewrite Hpb. cbn [andb fst snd]. rewrite Hpb. repeat split.
Qed.

Lemma checkOvertakes_cons (py : Q) (a : AICar) (rest : list AICar) (s : Q) :
  checkOvertakes py (a :: rest) s
    = (fst (checkOvertake py a s)
         :: fst (checkOvertakes py rest (snd (checkOvertake py a s))),
       snd (checkOvertakes py rest (snd (checkOvertake py a s)))).
Proof.
  cbn [checkOvertakes].
  destruct (checkOvertake py a s) as [a' s'].
  cbn [fst snd]. now destruct (checkOvertakes py rest s').
Qed.

(** X17: [_checkOvertakes] raises the score by exactly
    [POINTS_PER_OVERTAKE] = 10 for every car whose player-behind flag was
    already set before the call and which is now more than 40 units on the
    negative side of the player, and by nothing else; the roster keeps its
    length. *)
Theorem overtake_scoring (py : Q) (cars : list AICar) (score : Q) :
  snd (checkOvertakes py cars score)
    == score + 10 * inject_Z (Z.of_nat (length (filter (overtakeDue py) cars)))
  /\ length (fst (checkOvertakes py cars score)) = length cars.
Proof.
  revert score. induction cars as [|a rest IH]; intro score.
  - cbn. split; [ring | reflexivity].
  - rewrite checkOvertakes_cons. cbn [fst snd length filter].
    destruct (checkOvertake_spec py a score) as (Hs & _).
    destruct (IH (snd (checkOvertake py a score))) as [IHs IHl].
    split; [|now rewrite IHl].
    rewrite IHs, Hs.
    destruct (overtakeDue py a); [|reflexivity].
    cbn [length]. rewrite Nat2Z.inj_succ. unfold Z.succ.
    rewrite inject_Z_plus. unfold POINTS_PER_OVERTAKE.
    change (inject_Z 1) with 1. ring.
Qed.

(** X18: an overtake is paid once.  Calling [_checkOvertakes] again on
    the roster it has just processed, with the player at the same height,
    leaves the score as it is. *)
Theorem overtake_paid_once (py : Q) (cars : list AICar) (score score' : Q) :
  snd (checkOvertakes py (fst (checkOvertakes py cars score)) score')
    == score'.
Proof.
  assert (Hnone : forall l s,
    filter (overtakeDue py) (fst (checkOvertakes py l s)) = []).
  { induction l as [|a rest IH]; intro s; [reflexivity|].
    rewrite checkOvertakes_cons. cbn [fst filter].
    destruct (checkOvertake_spec py a s) as (_ & -> & _). apply IH. }
  destruct (overtake_scoring py (fst (checkOvertakes py cars score)) score')
    as [-> _].
  rewrite Hnone. cbn. ring.
Qed.

(** X19: a car the regulator has just respawned earns nothing: with the
    [Math.random] draws in [0,1), the overtake test run on the respawned
    car leaves the score and the car as they are, flag still cleared. *)
Theorem respawn_earns_nothing (a : AICar) (player : Player.t)
    (gameSpeed : Q) (d : RespawnDraws) (score : Q) :
  y a - Player.y player < -80 ->
  respawn_draws_ok d ->
  checkOvertake (Player.y player) (updateRubberBand a player gameSpeed d)
                score
    = (updateRubberBand a player gameSpeed d, score) /\
  playerBehind (updateRubberBand a player gameSpeed d) = false.
Proof.
  intros Hbehind [[Hy0 Hy1] _].
  assert (Hfar : Qltb 220 (y a - Player.y player) = false)
    by (apply Qltb_false; lra).
  apply Qltb_true in Hbehind.
  unfold updateRubberBand. rewrite Hfar, Hbehind.
  split; [|reflexivity].
  unfold checkOvertake. cbv zeta.
  cbn [playerBehind y respawnAbove set_rubberBandMult set_playerBehind
       set_state set_x set_targetLane set_lane set_y negb andb].
  assert (Hdown : Qltb (Player.y player + 40)
                       (Player.y player - 740 - draw_y d * 300) = false)
    by (apply Qltb_false; lra).
  rewrite Hdown. reflexivity.
Qed.

Lemma respawn_earns_nothing_witness :
  playerBehind (updateRubberBand (set_playerBehind (car_with 1 1 500 (1 # 2)) true)
                  (player_at 600 1) 300 (mkRespawnDraws (1 # 2) (1 # 2)))
    = false.
Proof.
  apply (respawn_earns_nothing (set_playerBehind (car_with 1 1 500 (1 # 2)) true)
           (player_at 600 1) 300 (mkRespawnDraws (1 # 2) (1 # 2)) 0).
  - reflexivity.
  - repeat split; discriminate.
Defined.

(** ** Dodging into the lane the car is in *)

(** X20: when the lane the car is in passes the dodge filter, [_dodge]
    with the cooldown run out targets that very lane: a car sitting in its
    lane is not moved, and a car that was half-way to another lane is
    sent back. *)
Theorem dodge_prefers_own_lane (a : AICar) (obstacles : list Obstacle.t)
    (peers : list AICar) :
  laneChangeCooldown a <= 0 ->
  lane_in_range (lane a) ->
  safeLane a obstacles peers (lane a) = true ->
  targetLane (dodge a obstacles peers) = lane a.
Proof.
  intros Hcd Hin Hsafe. apply Qltb_false in Hcd.
  unfold dodge. rewrite Hcd. cbv zeta.
  change (filter _ [0%Z; 1%Z; 2%Z])
    with (filter (safeLane a obstacles peers) [0%Z; 1%Z; 2%Z]).
  generalize dependent (safeLane a obstacles peers). intros f Hsafe.
  cbn [filter].
  destruct (lane_cases (lane a) Hin) as [E | [E | E]]; rewrite E in *;
    rewrite Hsafe;
    destruct (f 0%Z) eqn:F0; destruct (f 1%Z) eqn:F1; destruct (f 2%Z) eqn:F2;
    try discriminate;
    cbn; now rewrite changeLane_target by (split; lia).
Qed.

Lemma dodge_prefers_own_lane_witness :
  scanObstacle (car_with 1 0 600 (1 # 2)) [Obstacle.mk 112 550 32] = true /\
  targetLane (dodge (car_with 1 0 600 (1 # 2)) [Obstacle.mk 112 550 32] [])
    = 0%Z.
Proof.
  split; [reflexivity|].
  apply (dodge_prefers_own_lane (car_with 1 0 600 (1 # 2))
           [Obstacle.mk 112 550 32] []).
  - discriminate.
  - split; discriminate.
  - reflexivity.
Defined.

(** ** The roster contains the car itself *)

(** X21: the occupancy query never counts the car itself: entries of the
    roster that are the asking car (same object) can be added or removed
    without changing the answer, and a roster holding nothing else
    occupies no lane. *)
Theorem laneOccupied_ignores_self (a : AICar) (l : Z)
    (before after : list AICar) (me : AICar) :
  oid me = oid a ->
  laneOccupied a l (before ++ me :: after)
    = laneOccupied a l (before ++ after) /\
  laneOccupied a l [me] = false.
Proof.
  intro Hme. unfold laneOccupied. cbv zeta.
  rewrite !existsb_app. cbn [existsb].
  rewrite Hme, Nat.eqb_refl. cbn [negb andb orb]. split; reflexivity.
Qed.

Lemma laneOccupied_ignores_self_witness :
  laneOccupied (car_with 1 1 600 (1 # 2)) 1 [car_with 1 1 600 (1 # 2)] = false.
Proof.
  apply (laneOccupied_ignores_self (car_with 1 1 600 (1 # 2)) 1 [] []
           (car_with 1 1 600 (1 # 2))).
  reflexivity.
Defined.

(** ** What no operation touches *)

Lemma same_build_refl (a : AICar) : same_build a a.
Proof. repeat split. Qed.

Lemma same_build_trans (a b c : AICar) :
  same_build a b -> same_build b c -> same_build a c.
Proof.
  intros (A1 & A2 & A3 & A4 & A5 & A6 & A7) (B1 & B2 & B3 & B4 & B5 & B6 & B7).
  repeat split; congruence.
Qed.

Lemma via_changeLane_build (a a' : AICar) :
  via_changeLane a a' -> same_build a a'.
Proof.
  intros [-> | [n ->]]; [apply same_build_refl|].
  destruct (changeLane_cases a n) as [[_ ->] | (_ & _ & ->)]; repeat split.
Qed.

Lemma think_build (a : AICar) player obstacles peers :
  same_build a (think a player obstacles peers).
Proof.
  assert (H : exists b, via_changeLane b (think a player obstacles peers)
                        /\ same_build a b).
  { unfold think, thinkDefault.
    repeat match goal with
    | |- context [if ?c then _ else _] => destruct c
    end;
    eexists;
    (split;
     [ first [ apply dodge_shape | apply planBlock_shape
             | apply planOvertake_shape | left; reflexivity ]
     | repeat split ]). }
  destruct H as (b & Hvia & Hb).
  exact (same_build_trans _ _ _ Hb (via_changeLane_build _ _ Hvia)).
Qed.

Lemma applyMovement_build (a : AICar) (dt gameSpeed : Q) :
  same_build a (applyMovement a dt gameSpeed).
Proof.
  unfold applyMovement. cbv zeta.
  cbn [set_y laneCenters targetLane x LATERAL_SPEED].
  destruct (laneCenter (laneCenters a) (targetLane a));
    [destruct (x a); [destruct (Qle_bool _ _)|]|]; repeat split.
Qed.

Lemma updateRubberBand_build (a : AICar) player gameSpeed d :
  same_build a (updateRubberBand a player gameSpeed d).
Proof.
  unfold updateRubberBand.
  destruct (Qltb 220 _); [repeat split|].
  destruct (Qltb _ (-80)); repeat split.
Qed.

Lemma update_build (a : AICar) dt gameSpeed player obstacles peers d :
  same_build a (update a dt gameSpeed player obstacles peers d).
Proof.
  assert (Hreg : same_build a (updateRegulate a dt gameSpeed player d)).
  { unfold updateRegulate. cbv zeta.
    match goal with
    | |- same_build _ (updateRubberBand ?b _ _ _) =>
        apply (same_build_trans a b); [|apply updateRubberBand_build]
    end.
    match goal with
    | |- context [if ?c then _ else _] => destruct c
    end; repeat split. }
  assert (Hgate : forall b,
    same_build b (updateThink b dt player obstacles peers)).
  { intro b. unfold updateThink. destruct (Qltb 0 (reactionTimer b));
      [repeat split | apply think_build]. }
  unfold update. cbv zeta.
  eapply same_build_trans; [|apply applyMovement_build].
  eapply same_build_trans; [exact Hreg | apply Hgate].
Qed.

(** X22: no sequence of [update], [scroll] and regulator passes changes
    which object the car is, its lane layout, its width and height, its
    lateral speed, its colour or its aggression. *)
Theorem build_is_immutable (a : AICar) (ops : list Op) :
  same_build a (run a ops).
Proof.
  revert a. induction ops as [|op ops IH]; intro a;
    [apply same_build_refl|].
  cbn [run fold_left]. eapply same_build_trans; [|apply IH].
  destruct op as [dt gameSpeed player obstacles peers d | amount
                 | player gameSpeed d]; unfold applyOp.
  - apply update_build.
  - repeat split.
  - apply updateRubberBand_build.
Qed.
